(** * Flashcard content generator: idea deduplication and content expansion

    A shallow embedding of [database.py], [content_generator.py] and the two
    pipelines of [service.py], with the properties of the specification that
    concern them.

    Conventions of the model.
    - A Python [str] is a [string]: a sequence of code points below 256.
    - A Python [int] is a [Z].
    - A value produced by [json.loads] is a [json] (numbers are integers).
    - The SQLite file is a [database]: the rows of the two tables in rowid
      order and the two AUTOINCREMENT counters of [sqlite_sequence].
      Row ids stay far from the 64-bit limit of SQLite.
    - One process uses the file, and every call finds the file unlocked.
      A method that returns or raises before [conn.close()] abandons its
      connection inside a transaction; SQLite keeps the write lock of the
      file for it until the collector of Python finalises the connection,
      and a write attempted before that raises. The model gives the file
      such a call leaves behind; it does not follow the lock.
    - [CURRENT_TIMESTAMP] is a number of seconds, a [Z].
    - The text-generation service and the clock are the outside world: an
      abstract state [World] with a function for each interaction. *)

From Stdlib Require Import Ascii String ZArith.
From stdpp Require Import base list strings gmap sorting relations pretty.

Set Default Proof Using "Type".
Open Scope Z_scope.

(** ** Python strings *)

Module Py.

(** [str.isspace] on the code points below 256. *)
Definition isspace (c : ascii) : bool :=
  let n := N.to_nat (Ascii.N_of_ascii c) in
  ((9 <=? n) && (n <=? 13) || (28 <=? n) && (n <=? 32)
   || (n =? 133) || (n =? 160))%nat.

Fixpoint lstrip (s : string) : string :=
  match s with
  | EmptyString => EmptyString
  | String c s' => if isspace c then lstrip s' else s
  end.

Fixpoint rstrip (s : string) : string :=
  match s with
  | EmptyString => EmptyString
  | String c s' =>
      match rstrip s' with
      | EmptyString => if isspace c then EmptyString else String c EmptyString
      | r => String c r
      end
  end.

(** [s.strip()] *)
Definition strip (s : string) : string := rstrip (lstrip s).

(** Exceptions the three modules raise or catch. [IntegrityError] is
    [sqlite3.IntegrityError], [APIError] stands for what the OpenAI client
    raises; all of them are subclasses of [Exception]. *)
Inductive exn : Type :=
  | IntegrityError
  | ProgrammingError
  | OverflowError
  | ValueError
  | JSONDecodeError
  | AttributeError
  | TypeError
  | KeyError
  | APIError.

(** What [json.loads] returns: [None], a [bool], an [int], a [str], a [list]
    or a [dict] with [str] keys. *)
#[warnings="-register-all"]
Inductive json : Type :=
  | JNull
  | JBool (b : bool)
  | JInt (z : Z)
  | JStr (s : string)
  | JList (l : list json)
  | JDict (d : gmap string json).

(** [bool(v)] *)
Definition truthy (v : json) : bool :=
  match v with
  | JNull => false
  | JBool b => b
  | JInt z => bool_decide (z ≠ 0)
  | JStr s => bool_decide (s ≠ "")
  | JList l => match l with [] => false | _ :: _ => true end
  | JDict d => bool_decide (size d ≠ 0%nat)
  end.

(** [a or b] *)
Definition or (a b : json) : json := if truthy a then a else b.

(** [d.get(key)] on a [dict] *)
Definition dict_get (d : gmap string json) (key : string) : json :=
  default JNull (d !! key).

(** [v.get(key, dflt)]: only a [dict] has the method. *)
Definition get (v : json) (key : string) (dflt : json) : exn + json :=
  match v with
  | JDict d => inr (default dflt (d !! key))
  | _ => inl AttributeError
  end.

(** [v.strip()]: only a [str] has the method. *)
Definition strip_method (v : json) : exn + string :=
  match v with
  | JStr s => inr (strip s)
  | _ => inl AttributeError
  end.

(** [v[key]] for a [str] key. *)
Definition getitem (v : json) (key : string) : exn + json :=
  match v with
  | JDict d => match d !! key with Some x => inr x | None => inl KeyError end
  | _ => inl TypeError
  end.

(** [len(v)] *)
Definition len (v : json) : exn + Z :=
  match v with
  | JStr s => inr (Z.of_nat (String.length s))
  | JList l => inr (Z.of_nat (length l))
  | JDict d => inr (Z.of_nat (size d))
  | _ => inl TypeError
  end.

(** The number of items [seq[:stop]] keeps of a sequence of [n] items. *)
Definition slice_stop (n : nat) (stop : Z) : nat :=
  if bool_decide (stop < 0) then Z.to_nat (Z.of_nat n + stop)
  else Z.to_nat stop.

(** [v[:stop]]: a [list] and a [str] can be sliced. *)
Definition slice_to (v : json) (stop : Z) : exn + json :=
  match v with
  | JList l => inr (JList (take (slice_stop (length l) stop) l))
  | JStr s => inr (JStr (String.substring 0 (slice_stop (String.length s) stop) s))
  | JDict _ => inl TypeError
  | _ => inl TypeError
  end.

Fixpoint substring_of (needle hay : string) : bool :=
  String.prefix needle hay
  || match hay with
     | EmptyString => false
     | String _ hay' => substring_of needle hay'
     end.

(** [key in v] for a [str] key. *)
Definition contains (v : json) (key : string) : exn + bool :=
  match v with
  | JDict d => inr (bool_decide (is_Some (d !! key)))
  | JList l =>
      inr (existsb (λ x, match x with JStr s => String.eqb key s | _ => false end) l)
  | JStr s => inr (substring_of key s)
  | _ => inl TypeError
  end.

(** The items a [for] loop takes from [v]; the keys of a [dict] come in the
    order of the map. *)
Definition iter (v : json) : exn + list json :=
  match v with
  | JList l => inr l
  | JStr s => inr ((λ c, JStr (String c EmptyString)) <$> list_ascii_of_string s)
  | JDict d => inr (JStr <$> (map_to_list d).*1)
  | _ => inl TypeError
  end.

End Py.

(** ** The store: [database.py] *)

Module Idea.

(** A row of table [ideas]. *)
Record row : Type := Row {
  id : Z;
  topic : string;
  description : string;
  created_at : Z;
  content_generated : bool
}.

End Idea.

Module Content.

(** A row of table [content]. *)
Record row : Type := Row {
  id : Z;
  idea_id : Z;
  title : string;
  content : string;
  created_at : Z
}.

End Content.

Module Pending.

(** The dictionaries [get_pending_ideas] returns. *)
Record dict : Type := Dict {
  id : Z;
  topic : string;
  description : string;
  created_at : Z
}.

End Pending.

Module Article.

(** The dictionary [get_content_by_idea] returns. *)
Record dict : Type := Dict {
  id : Z;
  title : string;
  content : string;
  created_at : Z;
  topic : string
}.

End Article.

Record database : Type := Database {
  ideas : list Idea.row;
  ideas_seq : Z;
  content : list Content.row;
  content_seq : Z
}.

Record stats : Type := Stats {
  total_ideas : Z;
  ideas_with_content : Z;
  pending_ideas : Z;
  total_content_pieces : Z
}.

(** A [sqlite3] connection with its cursor: the database as committed, the
    database as this connection sees it (its uncommitted writes included),
    [cursor.lastrowid] and the [foreign_keys] pragma. *)
Record connection : Type := Connection {
  committed : database;
  working : database;
  lastrowid : Z;
  foreign_keys : bool
}.

Definition empty_database : database :=
  {| ideas := []; ideas_seq := 0; content := []; content_seq := 0 |}.

(** [CREATE TABLE IF NOT EXISTS]: a file that exists keeps its rows. *)
Definition init_database (file : option database) : database :=
  default empty_database file.

(** [sqlite3.connect]: SQLite opens every connection with foreign-key
    enforcement off, and no statement of the program turns it on. *)
Definition get_connection (db : database) : connection :=
  {| committed := db; working := db; lastrowid := 0; foreign_keys := false |}.

Definition commit (c : connection) : connection :=
  {| committed := working c; working := working c;
     lastrowid := lastrowid c; foreign_keys := foreign_keys c |}.

(** What is on disk once the connection is gone: uncommitted writes are
    rolled back. *)
Definition close (c : connection) : database := committed c.

(** The rowid an AUTOINCREMENT table gives its next row. *)
Definition next_rowid (seq : Z) (rowids : list Z) : Z :=
  foldr Z.max seq rowids + 1.

(** [INSERT INTO ideas (topic, description) VALUES (?, ?)] *)
Definition insert_idea (topic description : string) (now : Z)
    (c : connection) : Py.exn + connection :=
  let d := working c in
  if bool_decide (topic ∈ Idea.topic <$> ideas d) then inl Py.IntegrityError
  else
    let rowid := next_rowid (ideas_seq d) (Idea.id <$> ideas d) in
    inr {| committed := committed c;
           working :=
             {| ideas := ideas d ++ [Idea.Row rowid topic description now false];
                ideas_seq := rowid;
                content := content d;
                content_seq := content_seq d |};
           lastrowid := rowid;
           foreign_keys := foreign_keys c |}.

(** [INSERT INTO content (idea_id, title, content) VALUES (?, ?, ?)]; the
    clause [FOREIGN KEY (idea_id) REFERENCES ideas (id)] is checked only
    under [PRAGMA foreign_keys = ON]. *)
Definition insert_content (idea_id : Z) (title body : string) (now : Z)
    (c : connection) : Py.exn + connection :=
  let d := working c in
  if foreign_keys c && bool_decide (idea_id ∉ Idea.id <$> ideas d)
  then inl Py.IntegrityError
  else
    let rowid := next_rowid (content_seq d) (Content.id <$> content d) in
    inr {| committed := committed c;
           working :=
             {| ideas := ideas d;
                ideas_seq := ideas_seq d;
                content := content d ++ [Content.Row rowid idea_id title body now];
                content_seq := rowid |};
           lastrowid := rowid;
           foreign_keys := foreign_keys c |}.

Definition mark_generated (idea_id : Z) (r : Idea.row) : Idea.row :=
  if bool_decide (Idea.id r = idea_id)
  then Idea.Row (Idea.id r) (Idea.topic r) (Idea.description r)
         (Idea.created_at r) true
  else r.

(** [UPDATE ideas SET content_generated = TRUE WHERE id = ?] *)
Definition update_content_generated (idea_id : Z) (c : connection) : connection :=
  let d := working c in
  {| committed := committed c;
     working :=
       {| ideas := mark_generated idea_id <$> ideas d;
          ideas_seq := ideas_seq d;
          content := content d;
          content_seq := content_seq d |};
     lastrowid := lastrowid c;
     foreign_keys := foreign_keys c |}.

(** [add_idea]: the id of the new row, [None] when the insert violates a
    constraint; any other exception would leave the method. The [except]
    branch returns without [commit] and without [close]: the file stays as
    committed, and the connection is abandoned inside its transaction. *)
Definition add_idea (db : database) (topic description : string) (now : Z)
    : Py.exn + option Z * database :=
  let conn := get_connection db in
  match insert_idea (Py.strip topic) (Py.strip description) now conn with
  | inr conn =>
      let idea_id := lastrowid conn in
      let conn := commit conn in
      inr (Some idea_id, close conn)
  | inl Py.IntegrityError => inr (None, committed conn)
  | inl e => inl e
  end.

(** [SELECT COUNT( * ) FROM ideas WHERE topic = ?] *)
Definition count_topic (db : database) (topic : string) : Z :=
  Z.of_nat (length (filter (λ r, Idea.topic r = topic) (ideas db))).

Definition idea_exists (db : database) (topic : string) : bool :=
  bool_decide (count_topic db (Py.strip topic) > 0).

Definition created_at_asc : relation Idea.row :=
  λ r1 r2, Idea.created_at r1 ≤ Idea.created_at r2.

Definition created_at_desc : relation Idea.row :=
  λ r1 r2, Idea.created_at r2 ≤ Idea.created_at r1.

Global Instance created_at_asc_dec r1 r2 : Decision (created_at_asc r1 r2).
Proof. unfold created_at_asc. apply _. Defined.

Global Instance created_at_desc_dec r1 r2 : Decision (created_at_desc r1 r2).
Proof. unfold created_at_desc. apply _. Defined.

(** The place the sorter of SQLite gives a row among rows already sorted:
    before the first row that may follow it. *)
Fixpoint sorter_insert {A} (R : relation A) `{∀ x y, Decision (R x y)}
    (x : A) (rows : list A) : list A :=
  match rows with
  | [] => [x]
  | y :: rows' =>
      if decide (R x y) then x :: rows else y :: sorter_insert R x rows'
  end.

(** [ORDER BY]: rows of equal key keep the order in which the scan delivers
    them, the rowid order for the two queries of the program. *)
Definition order_by {A} (R : relation A) `{∀ x y, Decision (R x y)}
    (rows : list A) : list A :=
  foldr (sorter_insert R) [] rows.

(** [k], not negative, has at most [n] decimal digits. *)
Fixpoint digits_at_most (n : nat) (k : Z) : bool :=
  match n with
  | O => bool_decide (k = 0)
  | S n => bool_decide (k = 0) || digits_at_most n (k / 10)
  end.

(** [f"{k}"] for an [int]: Python prints no integer of more than 4300
    digits. *)
Definition max_str_digits : nat := 4300.

Definition format_int (k : Z) : Py.exn + Z :=
  if digits_at_most max_str_digits (Z.abs k) then inr k
  else inl Py.ValueError.

(** [LIMIT k], with [k] an integer literal of the statement text: a literal
    outside the 64-bit range is read as a floating-point number, which LIMIT
    refuses (datatype mismatch, an [IntegrityError]); a negative [k] puts no
    bound on the number of rows. *)
Definition sql_limit {A} (k : Z) (rows : list A) : Py.exn + list A :=
  if bool_decide (- 2 ^ 63 ≤ k < 2 ^ 63)
  then inr (if bool_decide (k < 0) then rows else take (Z.to_nat k) rows)
  else inl Py.IntegrityError.

(** The rows of [SELECT ... FROM ideas WHERE content_generated = FALSE
    ORDER BY created_at ASC]. *)
Definition pending_rows (db : database) : list Idea.row :=
  order_by created_at_asc
    (filter (λ r, Idea.content_generated r = false) (ideas db)).

(** The same query with [LIMIT {limit}] appended when [limit] is truthy. *)
Definition select_pending (db : database) (limit : option Z)
    : Py.exn + list Idea.row :=
  match limit with
  | Some k =>
      if bool_decide (k ≠ 0) then
        match format_int k with
        | inl e => inl e
        | inr k => sql_limit k (pending_rows db)
        end
      else inr (pending_rows db)
  | None => inr (pending_rows db)
  end.

Definition pending_dict (r : Idea.row) : Pending.dict :=
  {| Pending.id := Idea.id r;
     Pending.topic := Idea.topic r;
     Pending.description := Idea.description r;
     Pending.created_at := Idea.created_at r |}.

Definition get_pending_ideas (db : database) (limit : option Z)
    : Py.exn + list Pending.dict :=
  match select_pending db limit with
  | inl e => inl e
  | inr rows => inr (pending_dict <$> rows)
  end.

(** [add_content]: one transaction holding the insert and the update. An
    exception leaves the method before [commit] and [close]: the file stays
    as it was, and the connection is abandoned inside its transaction. *)
Definition add_content (db : database) (idea_id : Z) (title body : string)
    (now : Z) : Py.exn + Z * database :=
  let conn := get_connection db in
  match insert_content idea_id title body now conn with
  | inl e => inl e
  | inr conn =>
      let content_id := lastrowid conn in
      let conn := update_content_generated idea_id conn in
      let conn := commit conn in
      inr (content_id, close conn)
  end.

(** [get_all_ideas]: every row, newest first. *)
Definition get_all_ideas (db : database) : list Idea.row :=
  order_by created_at_desc (ideas db).

(** The rows of [content c JOIN ideas i ON c.idea_id = i.id WHERE
    c.idea_id = ?], content rows in rowid order. *)
Definition select_content_by_idea (db : database) (idea_id : Z)
    : list Article.dict :=
  c ← filter (λ c, Content.idea_id c = idea_id) (content db);
  i ← filter (λ i, Idea.id i = Content.idea_id c) (ideas db);
  [{| Article.id := Content.id c;
      Article.title := Content.title c;
      Article.content := Content.content c;
      Article.created_at := Content.created_at c;
      Article.topic := Idea.topic i |}].

(** [get_content_by_idea]: [cursor.fetchone()] of the join. *)
Definition get_content_by_idea (db : database) (idea_id : Z)
    : option Article.dict :=
  head (select_content_by_idea db idea_id).

Definition get_stats (db : database) : stats :=
  let total := Z.of_nat (length (ideas db)) in
  let with_content :=
    Z.of_nat (length (filter (λ r, Idea.content_generated r = true) (ideas db))) in
  {| total_ideas := total;
     ideas_with_content := with_content;
     pending_ideas := total - with_content;
     total_content_pieces := Z.of_nat (length (content db)) |}.

(** The connection as it stands after each statement of [add_content];
    another connection reads [committed] of it. *)
Definition add_content_trace (db : database) (idea_id : Z)
    (title body : string) (now : Z) : list connection :=
  let c0 := get_connection db in
  match insert_content idea_id title body now c0 with
  | inl _ => [c0]
  | inr c1 =>
      let c2 := update_content_generated idea_id c1 in
      [c0; c1; c2; commit c2]
  end.

(** ** The outside world *)

(** A call of [client.chat.completions.create], by the prompt it sends: each
    prompt is a fixed text around these arguments. *)
Inductive request : Type :=
  | IdeasRequest (count : Z) (category : string)
  | ArticleRequest (topic description : string) (word_count : Z)
  | SimilarityRequest (new_topic : string) (existing_topics : list string).

(** What comes back: the call raises, or the message content is handed to
    [json.loads], which returns a value or raises [JSONDecodeError]
    ([None]). *)
Inductive reply : Type :=
  | ApiRaises
  | ApiText (parsed : option Py.json).

(** The records of [logger] the properties refer to. *)
Inductive log_entry : Type :=
  | NoIdeasGenerated
  | SkippingEmptyTopic
  | DuplicateExact (topic : string)
  | DuplicateSimilar (topic : string)
  | AddedIdea (idea_id : Z) (topic : string)
  | IdeaGenerationComplete (new_count duplicate_count : Z)
  | ErrorInIdeaGeneration (e : Py.exn)
  | NoPendingIdeas
  | FoundPending (n : Z)
  | GeneratingContentFor (topic : string)
  | StoredContent (content_id : Z) (title : Py.json)
  | FailedToGenerate (topic : string)
  | ContentGenerationComplete (generated_count : Z)
  | ErrorInContentGeneration (e : Py.exn).

Section Outside.

(** The state of everything outside the process, the answer of the
    text-generation service to a request and the reading of the clock. *)
Context {World : Type}.
Variable openai : request → World → reply * World.
Variable current_timestamp : World → Z * World.

(** The outside world with the requests sent so far and the log written so
    far, oldest first. *)
Record env : Type := Env {
  world : World;
  calls : list request;
  log : list log_entry
}.

Definition chat_completions_create (req : request) (e : env) : reply * env :=
  let '(response, w) := openai req (world e) in
  (response, {| world := w; calls := calls e ++ [req]; log := log e |}).

Definition logger (entry : log_entry) (e : env) : env :=
  {| world := world e; calls := calls e; log := log e ++ [entry] |}.

Definition read_clock (e : env) : Z * env :=
  let '(now, w) := current_timestamp (world e) in
  (now, {| world := w; calls := calls e; log := log e |}).

(** ** The generator: [content_generator.py] *)

(** The value of [ideas]: a [dict] is searched under the three usual keys,
    anything else is taken as it is. *)
Definition unwrap_ideas (result : Py.json) : Py.json :=
  match result with
  | Py.JDict d =>
      Py.or (Py.or (Py.or (Py.dict_get d "ideas") (Py.dict_get d "topics"))
               (Py.dict_get d "data"))
        (Py.JList [])
  | _ => result
  end.

Definition generate_ideas (count : Z) (category : string) (e : env)
    : Py.json * env :=
  let '(response, e) := chat_completions_create (IdeasRequest count category) e in
  match response with
  | ApiRaises => (Py.JList [], e)
  | ApiText None => (Py.JList [], e)
  | ApiText (Some result) =>
      let ideas := unwrap_ideas result in
      match Py.len ideas with
      | inl _ => (Py.JList [], e)
      | inr _ =>
          match Py.slice_to ideas count with
          | inl _ => (Py.JList [], e)
          | inr taken => (taken, e)
          end
      end
  end.

Definition generate_content (topic description : string) (word_count : Z)
    (e : env) : option Py.json * env :=
  let '(response, e) :=
    chat_completions_create (ArticleRequest topic description word_count) e in
  match response with
  | ApiRaises => (None, e)
  | ApiText None => (None, e)
  | ApiText (Some result) =>
      match Py.contains result "title" with
      | inl _ => (None, e)
      | inr false => (None, e)
      | inr true =>
          match Py.contains result "content" with
          | inl _ => (None, e)
          | inr false => (None, e)
          | inr true =>
              (* the log line formats [result['title']] *)
              match Py.getitem result "title" with
              | inl _ => (None, e)
              | inr _ => (Some result, e)
              end
          end
      end
  end.

Definition is_similar_topic (new_topic : string) (existing_topics : list string)
    (e : env) : Py.json * env :=
  match existing_topics with
  | [] => (Py.JBool false, e)
  | _ :: _ =>
      let '(response, e) :=
        chat_completions_create (SimilarityRequest new_topic existing_topics) e in
      match response with
      | ApiRaises => (Py.JBool false, e)
      | ApiText None => (Py.JBool false, e)
      | ApiText (Some result) =>
          match Py.get result "is_similar" (Py.JBool false) with
          | inl _ => (Py.JBool false, e)
          | inr is_similar => (is_similar, e)
          end
      end
  end.

(** ** The service: [service.py] *)

Record service : Type := Service {
  db : database;
  outside : env;
  ideas_per_run : Z;
  content_per_run : Z;
  category : string
}.

Definition with_outside (e : env) (s : service) : service :=
  {| db := db s; outside := e; ideas_per_run := ideas_per_run s;
     content_per_run := content_per_run s; category := category s |}.

Definition with_db (d : database) (s : service) : service :=
  {| db := d; outside := outside s; ideas_per_run := ideas_per_run s;
     content_per_run := content_per_run s; category := category s |}.

(** A method body: it changes the service and returns or raises. *)
Definition M (A : Type) : Type := service → (Py.exn + A) * service.

Definition ret {A} (a : A) : M A := λ s, (inr a, s).

Definition raise {A} (e : Py.exn) : M A := λ s, (inl e, s).

Definition bind {A B} (m : M A) (k : A → M B) : M B :=
  λ s, match m s with
       | (inr a, s') => k a s'
       | (inl e, s') => (inl e, s')
       end.

Notation "'let*' x ':=' m 'in' k" := (bind m (λ x, k))
  (at level 10, x name, m at level 100, k at level 200).
Notation "'do' m 'then' k" := (bind m (λ _, k))
  (at level 10, m at level 100, k at level 200).

Definition gets {A} (f : service → A) : M A := λ s, (inr (f s), s).

Definition of_result {A} (r : Py.exn + A) : M A := λ s, (r, s).

(** A call of a generator method. *)
Definition generator {A} (f : env → A * env) : M A :=
  λ s, let '(a, e) := f (outside s) in (inr a, with_outside e s).

Definition info (entry : log_entry) : M unit :=
  λ s, (inr tt, with_outside (logger entry (outside s)) s).

Fixpoint for_each {A L} (body : A → L → M L) (items : list A) (locals : L)
    : M L :=
  match items with
  | [] => ret locals
  | x :: items => let* locals := body x locals in for_each body items locals
  end.

(** [try: body except Exception as e: logger.error(...)] *)
Definition try_except (body : M unit) (handler : Py.exn → log_entry)
    (s : service) : service :=
  match body s with
  | (inr _, s') => s'
  | (inl e, s') => with_outside (logger (handler e) (outside s')) s'
  end.

(** [self.db.add_idea(topic, description)], the row stamped by the clock. *)
Definition db_add_idea (topic description : string) : M (option Z) :=
  λ s, let '(now, e) := read_clock (outside s) in
       match add_idea (db s) topic description now with
       | inr (idea_id, d) => (inr idea_id, with_db d (with_outside e s))
       | inl ex => (inl ex, with_outside e s)
       end.

(** How [sqlite3] binds a Python value to a parameter: [None] is NULL, a
    [str] is text, an [int] or [bool] is a 64-bit integer, which a TEXT
    column stores as its decimal text; a [list] or [dict] is refused. *)
Definition sqlite_bind (v : Py.json) : Py.exn + option string :=
  match v with
  | Py.JNull => inr None
  | Py.JStr s => inr (Some s)
  | Py.JBool b => inr (Some (if b then "1" else "0"))
  | Py.JInt z =>
      if bool_decide (- 2 ^ 63 ≤ z < 2 ^ 63) then inr (Some (pretty z))
      else inl Py.OverflowError
  | Py.JList _ => inl Py.ProgrammingError
  | Py.JDict _ => inl Py.ProgrammingError
  end.

(** [self.db.add_content(idea_id, title, content)]: both parameters are
    bound, then the insert runs, stamped by the clock, and checks the NOT
    NULL constraints of the two columns. *)
Definition db_add_content (idea_id : Z) (title body : Py.json) : M Z :=
  λ s, match sqlite_bind title, sqlite_bind body with
       | inl ex, _ => (inl ex, s)
       | inr _, inl ex => (inl ex, s)
       | inr title, inr body =>
           let '(now, e) := read_clock (outside s) in
           let s := with_outside e s in
           match title, body with
           | Some title, Some body =>
               match add_content (db s) idea_id title body now with
               | inr (content_id, d) => (inr content_id, with_db d s)
               | inl ex => (inl ex, s)
               end
           | _, _ => (inl Py.IntegrityError, s)
           end
       end.

(** The local variables of the loop of [generate_and_store_ideas]. *)
Record idea_locals : Type := IdeaLocals {
  existing_topics : list string;
  new_count : Z;
  duplicate_count : Z
}.

Definition count_duplicate (l : idea_locals) : idea_locals :=
  {| existing_topics := existing_topics l; new_count := new_count l;
     duplicate_count := duplicate_count l + 1 |}.

Definition count_new (topic : string) (l : idea_locals) : idea_locals :=
  {| existing_topics := existing_topics l ++ [topic];
     new_count := new_count l + 1;
     duplicate_count := duplicate_count l |}.

(** The end of the loop body: the insert and what follows it. *)
Definition store_idea (topic description : string) (l : idea_locals)
    : M idea_locals :=
  let* idea_id := db_add_idea topic description in
  match idea_id with
  | Some i =>
      if bool_decide (i ≠ 0)
      then do info (AddedIdea i topic) then ret (count_new topic l)
      else ret (count_duplicate l)
  | None => ret (count_duplicate l)
  end.

(** The body of [for idea in raw_ideas]. *)
Definition process_idea (idea : Py.json) (l : idea_locals) : M idea_locals :=
  let* topic := of_result (Py.get idea "topic" (Py.JStr "")) in
  let* topic := of_result (Py.strip_method topic) in
  let* description := of_result (Py.get idea "description" (Py.JStr "")) in
  let* description := of_result (Py.strip_method description) in
  if bool_decide (topic = "") then do info SkippingEmptyTopic then ret l
  else
    let* found := gets (λ s, idea_exists (db s) topic) in
    if found : bool then do info (DuplicateExact topic) then ret (count_duplicate l)
    else
      let* is_similar := generator (is_similar_topic topic (existing_topics l)) in
      if Py.truthy is_similar
      then do info (DuplicateSimilar topic) then ret (count_duplicate l)
      else store_idea topic description l.

Definition ideas_body : M unit :=
  let* count := gets ideas_per_run in
  let* cat := gets category in
  let* raw_ideas := generator (generate_ideas count cat) in
  if negb (Py.truthy raw_ideas) then info NoIdeasGenerated
  else
    let* existing_ideas := gets (λ s, get_all_ideas (db s)) in
    let topics := Idea.topic <$> existing_ideas in
    let* candidates := of_result (Py.iter raw_ideas) in
    let* l :=
      for_each process_idea candidates
        {| existing_topics := topics; new_count := 0; duplicate_count := 0 |} in
    info (IdeaGenerationComplete (new_count l) (duplicate_count l)).

Definition generate_and_store_ideas : service → service :=
  try_except ideas_body ErrorInIdeaGeneration.

(** The body of [for idea in pending_ideas]; the local variable is
    [generated_count]. *)
Definition expand_idea (idea : Pending.dict) (generated_count : Z) : M Z :=
  let idea_id := Pending.id idea in
  let topic := Pending.topic idea in
  let description := Pending.description idea in
  do info (GeneratingContentFor topic) then
  let* result := generator (generate_content topic description 800) in
  match result with
  | Some result =>
      if Py.truthy result then
        let* title := of_result (Py.getitem result "title") in
        let* body := of_result (Py.getitem result "content") in
        let* content_id := db_add_content idea_id title body in
        do info (StoredContent content_id title) then
        ret (generated_count + 1)
      else do info (FailedToGenerate topic) then ret generated_count
  | None => do info (FailedToGenerate topic) then ret generated_count
  end.

Definition content_body : M unit :=
  let* limit := gets content_per_run in
  let* stored := gets db in
  let* pending := of_result (get_pending_ideas stored (Some limit)) in
  match pending with
  | [] => info NoPendingIdeas
  | _ :: _ =>
      do info (FoundPending (Z.of_nat (length pending))) then
      let* generated_count := for_each expand_idea pending 0 in
      info (ContentGenerationComplete generated_count)
  end.

Definition generate_and_store_content : service → service :=
  try_except content_body ErrorInContentGeneration.

(** [run_cycle]: ideas, then content. *)
Definition run_cycle (s : service) : service :=
  generate_and_store_content (generate_and_store_ideas s).

End Outside.

(** ** Vocabulary of the properties *)

(** [d] is the dictionary of a row of [db] with [content_generated = FALSE]. *)
Definition pending_in (db : database) (d : Pending.dict) : Prop :=
  ∃ r, r ∈ ideas db ∧ Idea.content_generated r = false ∧ d = pending_dict r.

Definition ascending (rows : list Pending.dict) : Prop :=
  StronglySorted (λ a b, Pending.created_at a ≤ Pending.created_at b) rows.

Definition strictly_ascending (rows : list Pending.dict) : Prop :=
  StronglySorted (λ a b, Pending.created_at a < Pending.created_at b) rows.

Definition idea_ids (db : database) : list Z := Idea.id <$> ideas db.

Definition content_refs (db : database) : list Z :=
  Content.idea_id <$> content db.

(** An idea is flagged exactly when a content row references it. *)
Definition consistent (db : database) : Prop :=
  ∀ r, r ∈ ideas db →
    Idea.content_generated r = true ↔ Idea.id r ∈ content_refs db.

(** Some row of id [idea_id] is stored and not flagged. *)
Definition pending_id (db : database) (idea_id : Z) : Prop :=
  ∃ r, r ∈ ideas db ∧ Idea.id r = idea_id ∧ Idea.content_generated r = false.

(** The writes of the pipeline: [add_idea], and [add_content] with the id of
    an idea that [get_pending_ideas] lists. *)
Inductive db_step : relation database :=
  | step_add_idea db topic description now r db' :
      add_idea db topic description now = inr (r, db') →
      db_step db db'
  | step_add_content db idea_id title body now content_id db' :
      pending_id db idea_id →
      add_content db idea_id title body now = inr (content_id, db') →
      db_step db db'.

Definition reachable (db : database) : Prop := rtc db_step empty_database db.

Record well_formed (db : database) : Prop := WellFormed {
  wf_ids : NoDup (idea_ids db);
  wf_topics : NoDup (Idea.topic <$> ideas db);
  wf_seq : 0 ≤ ideas_seq db;
  wf_refs : ∀ i, i ∈ content_refs db → i ∈ idea_ids db;
  wf_consistent : consistent db
}.

(** Idea [idea_id] is stored and every row of that id is flagged. *)
Definition flagged (idea_id : Z) (db : database) : Prop :=
  idea_id ∈ idea_ids db
  ∧ ∀ r, r ∈ ideas db → Idea.id r = idea_id → Idea.content_generated r = true.

(** The row of [d] is in the store, unflagged, and no content references it. *)
Definition still_pending (d : Pending.dict) (db : database) : Prop :=
  pending_in db d ∧ Pending.id d ∉ content_refs db.

(** What the similarity check sees when its [try] block raises: the call
    itself raises, the answer is no JSON, or the JSON value has no [get]. *)
Definition similarity_raises (r : reply) : Prop :=
  match r with
  | ApiRaises => True
  | ApiText None => True
  | ApiText (Some (Py.JDict _)) => False
  | ApiText (Some _) => True
  end.

(** The answer carries a truthy [is_similar]. *)
Definition says_similar (r : reply) : Prop :=
  match r with
  | ApiText (Some (Py.JDict d)) =>
      Py.truthy (default (Py.JBool false) (d !! "is_similar")) = true
  | _ => False
  end.

(** An item of the batch as the loop reads it: a [dict] whose [topic] and
    [description], when present, are strings; [topic] and [description] are
    the stripped values. *)
Definition candidate (idea : Py.json) (topic description : string) : Prop :=
  ∃ d t ds,
    idea = Py.JDict d
    ∧ default (Py.JStr "") (d !! "topic") = Py.JStr t
    ∧ default (Py.JStr "") (d !! "description") = Py.JStr ds
    ∧ topic = Py.strip t
    ∧ description = Py.strip ds.

Definition added_topics (entries : list log_entry) : list string :=
  omap (λ entry, match entry with
                 | AddedIdea _ topic => Some topic
                 | _ => None
                 end) entries.

(** Article generation fails for the idea as the outside world stands: the
    call of [generate_content] made now returns [None]. *)
Definition generation_fails {World : Type}
    (openai : request → World → reply * World) (d : Pending.dict)
    (e : @env World) : Prop :=
  (generate_content openai (Pending.topic d) (Pending.description d) 800 e).1
  = None.

(** Every stored topic and description is stripped. *)
Definition stripped (db : database) : Prop :=
  ∀ r, r ∈ ideas db →
    Py.strip (Idea.topic r) = Idea.topic r
    ∧ Py.strip (Idea.description r) = Idea.description r.


(** Row [r'] is row [r], possibly flagged since. *)
Definition same_idea (r r' : Idea.row) : Prop :=
  Idea.id r' = Idea.id r
  ∧ Idea.topic r' = Idea.topic r
  ∧ Idea.description r' = Idea.description r
  ∧ Idea.created_at r' = Idea.created_at r
  ∧ (Idea.content_generated r = true → Idea.content_generated r' = true).

(** Store [db'] holds every row of [db] at its place: ideas as they were but
    for the flag, which is never cleared, content rows unchanged. *)
Definition extends (db db' : database) : Prop :=
  (∀ k r, ideas db !! k = Some r →
     ∃ r', ideas db' !! k = Some r' ∧ same_idea r r')
  ∧ (∀ k c, content db !! k = Some c → content db' !! k = Some c).

(** No statistic but [pending_ideas] ever goes down. *)
Definition stats_grow (db db' : database) : Prop :=
  total_ideas (get_stats db) ≤ total_ideas (get_stats db')
  ∧ ideas_with_content (get_stats db) ≤ ideas_with_content (get_stats db')
  ∧ total_content_pieces (get_stats db) ≤ total_content_pieces (get_stats db').

(** A row as the idea pipeline stores it. *)
Definition fresh_row (r : Idea.row) : Prop :=
  Idea.topic r ≠ ""
  ∧ Py.strip (Idea.topic r) = Idea.topic r
  ∧ Idea.content_generated r = false.

(** The request [generate_content] sends for a pending idea. *)
Definition article_request (d : Pending.dict) : request :=
  ArticleRequest (Pending.topic d) (Pending.description d) 800.

(** ** Concrete inputs *)

(** The database once [add_idea] has run. *)
Definition after_add_idea (db : database) (topic description : string)
    (now : Z) : database :=
  match add_idea db topic description now with
  | inr (_, db') => db'
  | inl _ => db
  end.

(** Two ideas stored within the same second. *)
Definition same_second : database :=
  after_add_idea (after_add_idea empty_database "A" "" 100) "B" "" 100.

(** One idea stored, no content yet. *)
Definition one_pending : database := after_add_idea empty_database "A" "" 100.

(** A candidate as the backend sends it. *)
Definition idea_json (topic description : string) : Py.json :=
  Py.JDict {[ "topic" := Py.JStr topic; "description" := Py.JStr description ]}.

(** Outside worlds without state: a backend that is down, one that always
    answers with the same three ideas, one that finds everything similar;
    a clock that has stopped. *)
Definition backend_down : request → unit → reply * unit :=
  λ _ w, (ApiRaises, w).

Definition backend_three_ideas : request → unit → reply * unit :=
  λ _ w,
    (ApiText (Some (Py.JList [idea_json "A" "a"; idea_json "B" "b";
                              idea_json "C" "c"])), w).

Definition backend_all_similar : request → unit → reply * unit :=
  λ _ w, (ApiText (Some (Py.JDict {[ "is_similar" := Py.JBool true ]})), w).

Definition stopped_clock : unit → Z * unit := λ w, (100, w).

Definition quiet : @env unit := {| world := tt; calls := []; log := [] |}.

Definition service_on (d : database) : @service unit :=
  {| db := d; outside := quiet; ideas_per_run := 5; content_per_run := 3;
     category := "programming" |}.

Definition no_locals : idea_locals :=
  {| existing_topics := []; new_count := 0; duplicate_count := 0 |}.

Definition locals_A : idea_locals :=
  {| existing_topics := ["A"]; new_count := 0; duplicate_count := 0 |}.

(** The loop, once it has gone through the single candidate "A" on an
    empty store. *)
Definition after_A : idea_locals * @service unit :=
  ({| existing_topics := ["A"]; new_count := 1; duplicate_count := 0 |},
   {| db := after_add_idea empty_database "A" "a" 100;
      outside := {| world := tt; calls := []; log := [AddedIdea 1 "A"] |};
      ideas_per_run := 5; content_per_run := 3; category := "programming" |}).

(** [one_pending] once an article for its idea has been stored. *)
Definition one_article : database :=
  match add_content one_pending 1 "Title" "Body" 200 with
  | inr (_, db') => db'
  | inl _ => one_pending
  end.

(** The dictionary of the only idea of [one_pending]. *)
Definition pending_A : Pending.dict :=
  {| Pending.id := 1; Pending.topic := "A"; Pending.description := "";
     Pending.created_at := 100 |}.

(** A backend that answers every request with the same article, and one
    whose article has a null title. *)
Definition article_answer : gmap string Py.json :=
  {[ "title" := Py.JStr "Title"; "content" := Py.JStr "Body" ]}.

Definition null_title_answer : gmap string Py.json :=
  {[ "title" := Py.JNull; "content" := Py.JStr "Body" ]}.

Definition backend_article : request → unit → reply * unit :=
  λ _ w, (ApiText (Some (Py.JDict article_answer)), w).

Definition backend_null_title : request → unit → reply * unit :=
  λ _ w, (ApiText (Some (Py.JDict null_title_answer)), w).

(** The service on [one_pending] with a limit beyond 64 bits. *)
Definition service_no_limit : @service unit :=
  {| db := one_pending; outside := quiet; ideas_per_run := 5;
     content_per_run := 2 ^ 63; category := "programming" |}.

(** Three ideas stored within the same second. *)
Definition three_ties : database := after_add_idea same_second "C" "" 100.

(** A backend that is down for the first request and answers every later
    one with the article: the state of this world tells whether a request
    has been sent. The service on [one_pending] in that world. *)
Definition backend_transient : request → bool → reply * bool :=
  λ _ asked,
    (if asked then ApiText (Some (Py.JDict article_answer)) else ApiRaises, true).

Definition clock_transient : bool → Z * bool := λ w, (200, w).

Definition service_transient : @service bool :=
  {| db := one_pending;
     outside := {| world := false; calls := []; log := [] |};
     ideas_per_run := 5; content_per_run := 3; category := "programming" |}.

(** * Properties *)

(** ** Helpers: rowids, strings, the store *)

Lemma next_rowid_above_seq seq rowids : seq < next_rowid seq rowids.
Proof.
  unfold next_rowid. induction rowids as [|i rowids IH]; simpl; lia.
Qed.

Lemma next_rowid_fresh seq rowids i : i ∈ rowids → i < next_rowid seq rowids.
Proof.
  unfold next_rowid. induction rowids as [|j rowids IH]; simpl.
  - intros H. inversion H.
  - intros [->|H]%elem_of_cons; [lia|]. specialize (IH H). lia.
Qed.

Lemma next_rowid_not_elem seq rowids : next_rowid seq rowids ∉ rowids.
Proof. intros H%(next_rowid_fresh seq). lia. Qed.

Global Instance created_at_asc_total : Total created_at_asc.
Proof. intros r1 r2. unfold created_at_asc. lia. Qed.

Global Instance created_at_asc_trans : Transitive created_at_asc.
Proof. intros r1 r2 r3. unfold created_at_asc. lia. Qed.

Global Instance created_at_desc_total : Total created_at_desc.
Proof. intros r1 r2. unfold created_at_desc. lia. Qed.

(** [add_idea] never raises: it inserts, or reports the duplicate. *)
Lemma add_idea_cases db topic description now :
  ((Py.strip topic ∈ Idea.topic <$> ideas db)
   ∧ add_idea db topic description now = inr (None, db))
  ∨ ((Py.strip topic ∉ Idea.topic <$> ideas db)
     ∧ add_idea db topic description now =
         inr (Some (next_rowid (ideas_seq db) (Idea.id <$> ideas db)),
              {| ideas := ideas db ++
                   [Idea.Row (next_rowid (ideas_seq db) (Idea.id <$> ideas db))
                      (Py.strip topic) (Py.strip description) now false];
                 ideas_seq := next_rowid (ideas_seq db) (Idea.id <$> ideas db);
                 content := content db;
                 content_seq := content_seq db |})).
Proof.
  unfold add_idea, insert_idea, get_connection; simpl.
  case_bool_decide; [left|right]; done.
Qed.

Lemma count_topic_pos db topic :
  count_topic db topic > 0 ↔ topic ∈ Idea.topic <$> ideas db.
Proof.
  unfold count_topic. rewrite list_elem_of_fmap. split.
  - intros H. destruct (filter _ _) as [|r rs] eqn:E; [simpl in H; lia|].
    assert (r ∈ filter (λ r, Idea.topic r = topic) (ideas db)) as Hr
      by (rewrite E; left).
    apply list_elem_of_filter in Hr as [Ht Hr]. eauto.
  - intros (r & -> & Hr).
    assert (r ∈ filter (λ r', Idea.topic r' = Idea.topic r) (ideas db)) as Hin
      by (apply list_elem_of_filter; done).
    destruct (filter _ _); [inversion Hin|simpl; lia].
Qed.

Lemma idea_exists_spec db topic :
  idea_exists db topic = true ↔ Py.strip topic ∈ Idea.topic <$> ideas db.
Proof.
  unfold idea_exists. rewrite bool_decide_eq_true. apply count_topic_pos.
Qed.

(** ** C1: the pending ideas, oldest first *)

Section OrderBy.

Context {A : Type} (R : relation A) `{∀ x y, Decision (R x y)}.

Lemma sorter_insert_Permutation x rows : sorter_insert R x rows ≡ₚ x :: rows.
Proof.
  induction rows as [|y rows IH]; [done|]. cbn [sorter_insert].
  case_decide; [done|]. rewrite IH. apply Permutation_swap.
Qed.

Lemma order_by_Permutation rows : order_by R rows ≡ₚ rows.
Proof.
  induction rows as [|x rows IH]; [done|]. unfold order_by in *. cbn [foldr].
  by rewrite sorter_insert_Permutation, IH.
Qed.

Lemma StronglySorted_sorter_insert `{!Transitive R, !Total R} x rows :
  StronglySorted R rows → StronglySorted R (sorter_insert R x rows).
Proof.
  induction 1 as [|y rows Hs IH Hy]; cbn [sorter_insert].
  { repeat constructor. }
  case_decide as Hxy.
  - constructor; [by constructor|]. constructor; [done|].
    eapply Forall_impl; [exact Hy|]. intros z Hz. by etrans.
  - constructor; [done|].
    rewrite sorter_insert_Permutation. constructor; [|done].
    by destruct (total R x y).
Qed.

Lemma StronglySorted_order_by `{!Transitive R, !Total R} rows :
  StronglySorted R (order_by R rows).
Proof.
  induction rows as [|x rows IH]; [constructor|].
  by apply StronglySorted_sorter_insert.
Qed.

(** Rows the order does not tell apart come out in the order they went in. *)
Lemma order_by_stable (P : A → Prop) `{∀ x, Decision (P x)} rows :
  (∀ x y, P x → P y → R x y) →
  filter P (order_by R rows) = filter P rows.
Proof.
  intros Hties.
  assert (∀ x sorted,
            filter P (sorter_insert R x sorted) = filter P (x :: sorted)) as Hins.
  { intros x sorted. induction sorted as [|y sorted IH]; [done|].
    cbn [sorter_insert]. case_decide as Hxy; [done|].
    rewrite filter_cons, IH, !filter_cons.
    destruct (decide (P y)), (decide (P x)); try done.
    destruct Hxy. by apply Hties. }
  induction rows as [|x rows IH]; [done|]. unfold order_by in *. cbn [foldr].
  by rewrite Hins, !filter_cons, IH.
Qed.

End OrderBy.

Lemma pending_rows_sorted db : StronglySorted created_at_asc (pending_rows db).
Proof. apply (StronglySorted_order_by _). Qed.

Lemma pending_rows_elem db r :
  r ∈ pending_rows db ↔ r ∈ ideas db ∧ Idea.content_generated r = false.
Proof.
  unfold pending_rows. rewrite order_by_Permutation, list_elem_of_filter. tauto.
Qed.

(** Rows stored within the same second are listed in rowid order. *)
Lemma pending_rows_ties db t :
  filter (λ r, Idea.created_at r = t) (pending_rows db)
  = filter (λ r, Idea.created_at r = t)
      (filter (λ r, Idea.content_generated r = false) (ideas db)).
Proof.
  apply (order_by_stable _). unfold created_at_asc. intros x y -> ->. lia.
Qed.

Lemma get_all_ideas_ties db t :
  filter (λ r, Idea.created_at r = t) (get_all_ideas db)
  = filter (λ r, Idea.created_at r = t) (ideas db).
Proof.
  apply (order_by_stable _). unfold created_at_desc. intros x y -> ->. lia.
Qed.

Lemma digits_at_most_spec n k :
  0 ≤ k → digits_at_most n k = true ↔ k < 10 ^ Z.of_nat n.
Proof.
  revert k. induction n as [|n IH]; intros k Hk.
  { cbn [digits_at_most]. rewrite bool_decide_eq_true. cbn. lia. }
  cbn [digits_at_most].
  rewrite orb_true_iff, bool_decide_eq_true, IH by (by apply Z.div_pos).
  rewrite Nat2Z.inj_succ, Z.pow_succ_r by lia.
  pose proof (Z.div_mod k 10). pose proof (Z.mod_pos_bound k 10).
  assert (0 < 10 ^ Z.of_nat n) by (apply Z.pow_pos_nonneg; lia).
  lia.
Qed.

Lemma format_int_64 k : - 2 ^ 63 ≤ k < 2 ^ 63 → format_int k = inr k.
Proof.
  intros Hk. unfold format_int.
  assert (2 ^ 63 < 10 ^ Z.of_nat max_str_digits) as Hbound by (by vm_compute).
  rewrite (proj2 (digits_at_most_spec max_str_digits (Z.abs k) (Z.abs_nonneg k)));
    [done|].
  revert Hbound. generalize (10 ^ Z.of_nat max_str_digits). lia.
Qed.

(** What [get_pending_ideas] returns, limit by limit. *)
Lemma get_pending_ideas_None db :
  get_pending_ideas db None = inr (pending_dict <$> pending_rows db).
Proof. reflexivity. Qed.

Lemma get_pending_ideas_limit db K :
  0 < K < 2 ^ 63 →
  get_pending_ideas db (Some K)
  = inr (take (Z.to_nat K) (pending_dict <$> pending_rows db)).
Proof.
  intros HK. unfold get_pending_ideas, select_pending.
  rewrite bool_decide_true, format_int_64 by lia. unfold sql_limit.
  rewrite bool_decide_true, bool_decide_false by lia. by rewrite fmap_take.
Qed.

(** A limit of zero, or a negative one within 64 bits, bounds nothing. *)
Lemma get_pending_ideas_no_limit db K :
  - 2 ^ 63 ≤ K ≤ 0 → get_pending_ideas db (Some K) = get_pending_ideas db None.
Proof.
  intros HK. unfold get_pending_ideas, select_pending.
  case_bool_decide; [|done]. rewrite format_int_64 by lia. unfold sql_limit.
  by rewrite !bool_decide_true by lia.
Qed.

(** A limit beyond 64 bits makes the query raise. *)
Lemma get_pending_ideas_raises db K :
  K < - 2 ^ 63 ∨ 2 ^ 63 ≤ K →
  get_pending_ideas db (Some K) = inl Py.IntegrityError
  ∨ get_pending_ideas db (Some K) = inl Py.ValueError.
Proof.
  intros HK. unfold get_pending_ideas, select_pending.
  rewrite bool_decide_true by lia. unfold format_int.
  destruct (digits_at_most _ _); [|by right]. unfold sql_limit.
  rewrite bool_decide_false by lia. by left.
Qed.

(** Every answer is the unlimited one, or the first rows of it. *)
Lemma get_pending_ideas_take db limit rows :
  get_pending_ideas db limit = inr rows →
  ∃ n, rows = pending_dict <$> take n (pending_rows db).
Proof.
  assert (∃ n, pending_dict <$> pending_rows db
               = pending_dict <$> take n (pending_rows db)) as Hall.
  { exists (length (pending_rows db)). by rewrite firstn_all. }
  unfold get_pending_ideas, select_pending.
  destruct limit as [k|]; [|by intros [= <-]].
  case_bool_decide; [|by intros [= <-]].
  destruct (format_int k) as [ex|k']; [done|]. unfold sql_limit.
  case_bool_decide; [|done]. case_bool_decide; intros [= <-]; eauto.
Qed.

Lemma get_pending_ideas_elem db limit rows d :
  get_pending_ideas db limit = inr rows → d ∈ rows → pending_in db d.
Proof.
  intros (n & ->)%get_pending_ideas_take (r & -> & Hr)%list_elem_of_fmap.
  apply subseteq_take, pending_rows_elem in Hr as [? ?]. by exists r.
Qed.

Lemma get_pending_ideas_ids db limit rows :
  NoDup (idea_ids db) → get_pending_ideas db limit = inr rows →
  NoDup (Pending.id <$> rows).
Proof.
  intros Hnd (n & ->)%get_pending_ideas_take.
  rewrite <-list_fmap_compose.
  change (Pending.id ∘ pending_dict) with Idea.id.
  assert (NoDup (Idea.id <$> pending_rows db)) as Hrows.
  { unfold pending_rows. rewrite order_by_Permutation.
    eapply sublist_NoDup; [exact Hnd|]. apply fmap_sublist, sublist_filter. }
  eapply sublist_NoDup; [exact Hrows|]. apply fmap_sublist, sublist_take.
Qed.

Lemma get_pending_ideas_ascending db limit rows :
  get_pending_ideas db limit = inr rows → ascending rows.
Proof.
  intros (n & ->)%get_pending_ideas_take. unfold ascending.
  apply (StronglySorted_fmap _ created_at_asc); [by intros r1 r2 H|].
  pose proof (pending_rows_sorted db) as Hs.
  rewrite <-(take_drop n (pending_rows db)) in Hs.
  by apply StronglySorted_app_1_l in Hs.
Qed.

(** C1, for limits from 1 to 2^63 - 1 and with ties: for such a limit [K],
    [get_pending_ideas] returns, and returns at most [K] dictionaries, each
    of a row with [content_generated = FALSE], in ascending order of
    [created_at], equal times allowed; they are the first [K] of the
    unlimited answer. *)
Theorem get_pending_ideas_oldest_first (db : database) (K : Z) :
  0 < K < 2 ^ 63 →
  ∃ rows unlimited,
    get_pending_ideas db (Some K) = inr rows
    ∧ get_pending_ideas db None = inr unlimited
    ∧ Z.of_nat (length rows) ≤ K
    ∧ Forall (pending_in db) rows
    ∧ ascending rows
    ∧ rows = take (Z.to_nat K) unlimited.
Proof.
  intros HK. eexists _, _.
  split; [by apply get_pending_ideas_limit|].
  split; [apply get_pending_ideas_None|].
  pose proof (get_pending_ideas_limit db K HK) as Hrows. split_and!.
  - rewrite length_take. lia.
  - apply Forall_forall. intros d Hd. by eapply get_pending_ideas_elem.
  - by eapply get_pending_ideas_ascending.
  - done.
Qed.

Lemma get_pending_ideas_oldest_first_witness :
  ∃ rows unlimited,
    get_pending_ideas same_second (Some 1) = inr rows
    ∧ get_pending_ideas same_second None = inr unlimited
    ∧ Z.of_nat (length rows) ≤ 1
    ∧ Forall (pending_in same_second) rows
    ∧ ascending rows
    ∧ rows = take (Z.to_nat 1) unlimited.
Proof. apply (get_pending_ideas_oldest_first same_second 1). lia. Defined.

(** C1, as stated, fails three times: two ideas stored in the same second
    are returned with equal creation times, the limit 0 is no limit, and
    with the limit 2^63 the call raises instead of returning. *)
Lemma get_pending_ideas_ties_and_zero :
  (∃ rows, get_pending_ideas same_second (Some 2) = inr rows
           ∧ ¬ strictly_ascending rows)
  ∧ (∃ rows, get_pending_ideas same_second (Some 0) = inr rows
             ∧ ¬ Z.of_nat (length rows) ≤ 0)
  ∧ get_pending_ideas same_second (Some (2 ^ 63)) = inl Py.IntegrityError.
Proof.
  split_and!.
  - eexists. split; [by vm_compute|].
    intros H. inversion H as [|a l Hs Hall]; subst.
    inversion Hall as [|b l' Hlt Hrest]; subst. vm_compute in Hlt. discriminate Hlt.
  - eexists. split; [by vm_compute|]. vm_compute. intros H. by apply H.
  - by vm_compute.
Qed.

(** Three ideas of the same second come out in rowid order, whatever the
    query and the limit. *)
Example ties_in_rowid_order :
  get_pending_ideas three_ties None
  = inr [Pending.Dict 1 "A" "" 100; Pending.Dict 2 "B" "" 100;
         Pending.Dict 3 "C" "" 100]
  ∧ get_pending_ideas three_ties (Some 2)
    = inr [Pending.Dict 1 "A" "" 100; Pending.Dict 2 "B" "" 100]
  ∧ Idea.id <$> get_all_ideas three_ties = [1; 2; 3].
Proof. split_and!; by vm_compute. Qed.

(** ** C7: a stored topic exists and cannot be stored twice *)

(** C7: once [add_idea] has returned an id for topic [T], [idea_exists T] is
    true and every further [add_idea] of [T] returns [None] and leaves the
    database as it is. *)
Theorem add_idea_then_duplicate (db db' : database) (T description : string)
    (now idea_id : Z) :
  add_idea db T description now = inr (Some idea_id, db') →
  idea_exists db' T = true
  ∧ ∀ description' now', add_idea db' T description' now' = inr (None, db').
Proof.
  intros Hadd.
  assert (Py.strip T ∈ Idea.topic <$> ideas db') as Hin.
  { destruct (add_idea_cases db T description now) as [[_ E]|[_ E]];
      rewrite E in Hadd; [discriminate|].
    injection Hadd as _ <-. simpl.
    rewrite fmap_app, elem_of_app. right. simpl. left. }
  split; [by apply idea_exists_spec|].
  intros description' now'.
  destruct (add_idea_cases db' T description' now') as [[_ E]|[Hn _]]; done.
Qed.

Lemma add_idea_then_duplicate_witness :
  idea_exists (after_add_idea empty_database " A " "" 100) " A " = true
  ∧ ∀ description' now',
      add_idea (after_add_idea empty_database " A " "" 100) " A "
        description' now'
      = inr (None, after_add_idea empty_database " A " "" 100).
Proof.
  apply (add_idea_then_duplicate empty_database _ " A " "" 100 1).
  reflexivity.
Defined.

(** ** C2: the foreign key of [content] *)

(** The clause of the schema as SQLite applies it once enforcement is on:
    the insert of a row that references no idea is refused. *)
Example insert_content_enforced :
  insert_content 999 "title" "body" 0
    {| committed := empty_database; working := empty_database;
       lastrowid := 0; foreign_keys := true |}
  = inl Py.IntegrityError.
Proof. reflexivity. Qed.

(** C2, the code at the failing input: on the empty database
    [add_content(999, ...)] returns content id 1 and leaves a row of
    [content] whose [idea_id] names no idea. *)
Theorem add_content_orphan :
  add_content empty_database 999 "title" "body" 0
  = inr (1, {| ideas := []; ideas_seq := 0;
               content := [Content.Row 1 999 "title" "body" 0];
               content_seq := 1 |})
  ∧ 999 ∉ Idea.id <$> ideas empty_database.
Proof. split; [reflexivity|]. simpl. apply not_elem_of_nil. Qed.

(** What the orphan becomes: stored before any idea, the content row of id 1
    is taken for content of the first idea stored afterwards, which is still
    pending. *)
Example orphan_adopted :
  let db := after_add_idea
              (match add_content empty_database 1 "title" "body" 0 with
               | inr (_, db) => db
               | inl _ => empty_database
               end) "A" "" 100 in
  pending_id db 1 ∧ 1 ∈ content_refs db.
Proof.
  split.
  - eexists. split_and!; [left|reflexivity..].
  - left.
Qed.

(** ** Invariants of the store *)

Lemma add_content_eq db idea_id title body now :
  add_content db idea_id title body now =
    inr (next_rowid (content_seq db) (Content.id <$> content db),
         {| ideas := mark_generated idea_id <$> ideas db;
            ideas_seq := ideas_seq db;
            content := content db ++
              [Content.Row (next_rowid (content_seq db) (Content.id <$> content db))
                 idea_id title body now];
            content_seq := next_rowid (content_seq db) (Content.id <$> content db) |}).
Proof. reflexivity. Qed.

Lemma mark_generated_id idea_id r : Idea.id (mark_generated idea_id r) = Idea.id r.
Proof. unfold mark_generated. by case_bool_decide. Qed.

Lemma mark_generated_topic idea_id r :
  Idea.topic (mark_generated idea_id r) = Idea.topic r.
Proof. unfold mark_generated. by case_bool_decide. Qed.

Lemma mark_generated_ids idea_id (rows : list Idea.row) :
  Idea.id <$> (mark_generated idea_id <$> rows) = Idea.id <$> rows.
Proof.
  rewrite <-list_fmap_compose. apply list_fmap_ext.
  intros _ r _. apply mark_generated_id.
Qed.

Lemma mark_generated_topics idea_id (rows : list Idea.row) :
  Idea.topic <$> (mark_generated idea_id <$> rows) = Idea.topic <$> rows.
Proof.
  rewrite <-list_fmap_compose. apply list_fmap_ext.
  intros _ r _. apply mark_generated_topic.
Qed.

Lemma well_formed_empty : well_formed empty_database.
Proof.
  split; simpl; try apply NoDup_nil_2; try lia.
  - intros i H. inversion H.
  - intros r H. inversion H.
Qed.

Lemma well_formed_add_idea db topic description now r db' :
  well_formed db →
  add_idea db topic description now = inr (r, db') →
  well_formed db'.
Proof.
  intros [Hids Htopics Hseq Hrefs Hcons] Hadd.
  destruct (add_idea_cases db topic description now) as [[_ E]|[Hfresh E]];
    rewrite E in Hadd; injection Hadd as <- <-; [done|].
  pose proof (next_rowid_not_elem (ideas_seq db) (Idea.id <$> ideas db)) as Hnew.
  split; unfold consistent, idea_ids, content_refs in *; simpl.
  - rewrite fmap_app. apply NoDup_app. split_and!; [done| |apply NoDup_singleton].
    intros i Hi ->%list_elem_of_singleton. done.
  - rewrite fmap_app. apply NoDup_app. split_and!; [done| |apply NoDup_singleton].
    intros i Hi ->%list_elem_of_singleton. done.
  - pose proof (next_rowid_above_seq (ideas_seq db) (Idea.id <$> ideas db)). lia.
  - intros i Hi. rewrite fmap_app, elem_of_app. left. auto.
  - intros row [Hrow| ->%list_elem_of_singleton]%elem_of_app; [auto|].
    simpl. split; [discriminate|]. intros Hin. destruct Hnew. auto.
Qed.

Lemma well_formed_add_content db idea_id title body now content_id db' :
  well_formed db →
  idea_id ∈ idea_ids db →
  add_content db idea_id title body now = inr (content_id, db') →
  well_formed db'.
Proof.
  intros [Hids Htopics Hseq Hrefs Hcons] Hid Hadd.
  rewrite add_content_eq in Hadd. injection Hadd as <- <-.
  split; unfold consistent, idea_ids, content_refs in *;
    cbn [ideas ideas_seq content content_seq].
  - by rewrite mark_generated_ids.
  - by rewrite mark_generated_topics.
  - done.
  - rewrite mark_generated_ids. intros i.
    rewrite fmap_app, elem_of_app.
    intros [Hi| ->%list_elem_of_singleton]; auto.
  - intros row (r & -> & Hr)%list_elem_of_fmap.
    rewrite mark_generated_id, fmap_app, elem_of_app.
    cbn [fmap list_fmap Content.idea_id].
    rewrite list_elem_of_singleton. unfold mark_generated.
    case_bool_decide as Heq; cbn [Idea.content_generated].
    + split; auto.
    + rewrite (Hcons r Hr). split; [auto|]. intros [?|?]; done.
Qed.

Lemma pending_id_stored db idea_id : pending_id db idea_id → idea_id ∈ idea_ids db.
Proof. intros (r & Hr & <- & _). by apply list_elem_of_fmap_2. Qed.

Lemma well_formed_step db db' : well_formed db → db_step db db' → well_formed db'.
Proof.
  intros Hwf Hstep. destruct Hstep.
  - eapply well_formed_add_idea; eauto.
  - eapply well_formed_add_content; eauto using pending_id_stored.
Qed.

Lemma well_formed_steps db db' :
  well_formed db → rtc db_step db db' → well_formed db'.
Proof. intros Hwf Hsteps. induction Hsteps; eauto using well_formed_step. Qed.

Lemma reachable_well_formed db : reachable db → well_formed db.
Proof. apply well_formed_steps, well_formed_empty. Qed.

Lemma flagged_step idea_id db db' :
  flagged idea_id db → db_step db db' → flagged idea_id db'.
Proof.
  intros [Hin Hflag] Hstep. destruct Hstep as
    [db topic description now r db' Hadd
    |db other title body now content_id db' _ Hadd].
  - destruct (add_idea_cases db topic description now) as [[_ E]|[_ E]];
      rewrite E in Hadd; injection Hadd as <- <-; [done|].
    split; unfold idea_ids in *; cbn [ideas].
    + rewrite fmap_app, elem_of_app. by left.
    + intros row [Hrow| ->%list_elem_of_singleton]%elem_of_app; [auto|].
      cbn [Idea.id]. intros <-.
      by destruct (next_rowid_not_elem (ideas_seq db) (Idea.id <$> ideas db)).
  - rewrite add_content_eq in Hadd. injection Hadd as <- <-.
    split; unfold idea_ids in *; cbn [ideas].
    + by rewrite mark_generated_ids.
    + intros row (r & -> & Hr)%list_elem_of_fmap.
      rewrite mark_generated_id. unfold mark_generated.
      case_bool_decide; [done|auto].
Qed.

Lemma flagged_steps idea_id db db' :
  flagged idea_id db → rtc db_step db db' → flagged idea_id db'.
Proof. intros H Hsteps. induction Hsteps; eauto using flagged_step. Qed.

Lemma flagged_not_pending idea_id db limit rows d :
  flagged idea_id db → get_pending_ideas db limit = inr rows → d ∈ rows →
  Pending.id d ≠ idea_id.
Proof.
  intros [_ Hflag] Hrows Hd.
  destruct (get_pending_ideas_elem _ _ _ _ Hrows Hd) as (r & Hr & Hpending & ->).
  cbn [pending_dict Pending.id].
  intros Heq. specialize (Hflag r Hr Heq). congruence.
Qed.

Lemma flagged_add_content db idea_id title body now content_id db' :
  idea_id ∈ idea_ids db →
  add_content db idea_id title body now = inr (content_id, db') →
  flagged idea_id db'.
Proof.
  intros Hin Hadd. rewrite add_content_eq in Hadd. injection Hadd as <- <-.
  split; unfold idea_ids in *; cbn [ideas].
  - by rewrite mark_generated_ids.
  - intros row (r & -> & Hr)%list_elem_of_fmap.
    rewrite mark_generated_id. intros Heq. unfold mark_generated.
    by rewrite bool_decide_true.
Qed.

Lemma filter_refs_nil idea_id (rows : list Content.row) :
  idea_id ∉ Content.idea_id <$> rows →
  filter (λ c, Content.idea_id c = idea_id) rows = [].
Proof.
  intros Hnot. induction rows as [|c rows IH]; [done|].
  rewrite fmap_cons, not_elem_of_cons in Hnot. destruct Hnot as [Hne Hnot].
  rewrite filter_cons_False by congruence. auto.
Qed.

Lemma one_pending_reachable : reachable one_pending.
Proof.
  eapply rtc_l; [|apply rtc_refl].
  by eapply (step_add_idea empty_database "A" "" 100).
Defined.

(** ** The generator *)

Lemma substring_length n s :
  (String.length (String.substring 0 n s) ≤ n)%nat.
Proof.
  revert s. induction n as [|n IH]; intros [|c s]; simpl; try lia.
  specialize (IH s). lia.
Qed.

Lemma slice_stop_le n stop : 0 ≤ stop → Z.of_nat (Py.slice_stop n stop) ≤ stop.
Proof. intros H. unfold Py.slice_stop. rewrite bool_decide_false by lia. lia. Qed.

Section Properties.

Context {World : Type}.
Variable openai : request → World → reply * World.
Variable current_timestamp : World → Z * World.

Implicit Types (e : @env World) (s : @service World) (l : idea_locals).

Lemma is_similar_topic_calls new_topic existing e :
  existing ≠ [] →
  is_similar_topic openai new_topic existing e =
    (match (openai (SimilarityRequest new_topic existing) (world e)).1 with
     | ApiText (Some (Py.JDict d)) => default (Py.JBool false) (d !! "is_similar")
     | _ => Py.JBool false
     end,
     {| world := (openai (SimilarityRequest new_topic existing) (world e)).2;
        calls := calls e ++ [SimilarityRequest new_topic existing];
        log := log e |}).
Proof.
  intros Hne. unfold is_similar_topic, chat_completions_create.
  destruct existing as [|t ts]; [done|].
  destruct (openai _ _) as [[|[[]|]] w]; reflexivity.
Qed.

Lemma generate_ideas_len count category e :
  0 ≤ count →
  ∃ n, Py.len (generate_ideas openai count category e).1 = inr n ∧ 0 ≤ n ≤ count.
Proof.
  intros Hc. unfold generate_ideas, chat_completions_create.
  destruct (openai _ _) as [[|[result|]] w]; cbn [fst];
    try (exists 0; split; [reflexivity|lia]).
  destruct (Py.len (unwrap_ideas result)) as [err|n] eqn:Hlen;
    [exists 0; split; [reflexivity|lia]|].
  destruct (unwrap_ideas result) as [| | |str|items|d]; try discriminate; cbn.
  - eexists; split; [reflexivity|].
    pose proof (substring_length (Py.slice_stop (String.length str) count) str).
    pose proof (slice_stop_le (String.length str) count Hc). lia.
  - eexists; split; [reflexivity|]. rewrite length_take.
    pose proof (slice_stop_le (length items) count Hc). lia.
  - exists 0; split; [reflexivity|lia].
Qed.

(** *** The loop bodies, case by case *)

Lemma for_each_app {A L} (body : A → L → M L) (xs ys : list A) (locals : L) s :
  for_each body (xs ++ ys) locals s =
    bind (for_each body xs locals) (for_each body ys) s.
Proof.
  revert locals s. induction xs as [|x xs IH]; intros locals s; [done|].
  cbn [app for_each]. unfold bind in *.
  destruct (body x locals s) as [[ex|locals'] s']; [done|]. apply IH.
Qed.

Lemma store_idea_eq topic description l s :
  store_idea current_timestamp topic description l s =
    let '(now, e) := read_clock current_timestamp (outside s) in
    match add_idea (db s) topic description now with
    | inr (Some i, d) =>
        if bool_decide (i ≠ 0)
        then (inr (count_new topic l),
              with_outside (logger (AddedIdea i topic) e) (with_db d s))
        else (inr (count_duplicate l), with_db d (with_outside e s))
    | inr (None, d) => (inr (count_duplicate l), with_db d (with_outside e s))
    | inl ex => (inl ex, with_outside e s)
    end.
Proof.
  unfold store_idea, bind, db_add_idea.
  destruct (read_clock _ _) as [now e].
  destruct (add_idea _ _ _ _) as [ex|[[i|] d]]; [done| |done].
  case_bool_decide; done.
Qed.

Lemma process_idea_candidate idea topic description l s :
  candidate idea topic description →
  process_idea openai current_timestamp idea l s =
    if bool_decide (topic = "")
    then (inr l, with_outside (logger SkippingEmptyTopic (outside s)) s)
    else if idea_exists (db s) topic
    then (inr (count_duplicate l),
          with_outside (logger (DuplicateExact topic) (outside s)) s)
    else
      let '(is_similar, e) :=
        is_similar_topic openai topic (existing_topics l) (outside s) in
      if Py.truthy is_similar
      then (inr (count_duplicate l),
            with_outside (logger (DuplicateSimilar topic) e) s)
      else store_idea current_timestamp topic description l (with_outside e s).
Proof.
  intros (d & t & ds & -> & Ht & Hds & -> & ->).
  unfold process_idea, bind, of_result, Py.get. rewrite Ht, Hds.
  cbn [Py.strip_method]. case_bool_decide; [done|].
  unfold gets, generator, info. cbn [db].
  destruct (idea_exists _ _); [done|].
  destruct (is_similar_topic _ _ _ _) as [v e].
  destruct (Py.truthy v); done.
Qed.

(** An item that is no candidate raises before anything happens. *)
Lemma process_idea_parse idea l s :
  (∃ ex, process_idea openai current_timestamp idea l s = (inl ex, s))
  ∨ (∃ topic description, candidate idea topic description).
Proof.
  destruct idea as [| | | | |d]; try (left; eexists; reflexivity).
  destruct (default (Py.JStr "") (d !! "topic")) as [| | |t| |] eqn:Ht;
    try (left; eexists; unfold process_idea, bind, of_result, Py.get;
         rewrite Ht; reflexivity).
  destruct (default (Py.JStr "") (d !! "description")) as [| | |ds| |] eqn:Hds;
    try (left; eexists; unfold process_idea, bind, of_result, Py.get;
         rewrite Ht; cbn [Py.strip_method]; rewrite Hds; reflexivity).
  right. exists (Py.strip t), (Py.strip ds), d, t, ds. done.
Qed.

Lemma read_clock_eq e :
  read_clock current_timestamp e =
    ((current_timestamp (world e)).1,
     {| world := (current_timestamp (world e)).2; calls := calls e; log := log e |}).
Proof. unfold read_clock. by destruct (current_timestamp _). Qed.

(** A fresh topic is inserted and counted as new. *)
Lemma store_idea_fresh topic description l s :
  0 ≤ ideas_seq (db s) →
  idea_exists (db s) topic = false →
  ∃ idea_id s',
    store_idea current_timestamp topic description l s
      = (inr (count_new topic l), s')
    ∧ idea_exists (db s') topic = true
    ∧ calls (outside s') = calls (outside s)
    ∧ log (outside s') = log (outside s) ++ [AddedIdea idea_id topic].
Proof.
  intros Hseq Hnew. rewrite store_idea_eq, read_clock_eq.
  set (now := (current_timestamp _).1).
  assert (Py.strip topic ∉ Idea.topic <$> ideas (db s)) as Hfresh.
  { intros Hin%idea_exists_spec. congruence. }
  destruct (add_idea_cases (db s) topic description now) as [[Hin _]|[_ E]];
    [done|].
  rewrite E.
  pose proof (next_rowid_above_seq (ideas_seq (db s)) (Idea.id <$> ideas (db s))).
  rewrite bool_decide_true by lia.
  eexists _, _. split_and!; [reflexivity| |reflexivity|reflexivity].
  apply idea_exists_spec. cbn [db with_outside with_db ideas].
  rewrite fmap_app, elem_of_app. right. cbn. left.
Qed.

(** The loop of [generate_and_store_ideas]: it starts from the topics of
    the store and the two counters at zero. *)
Lemma generate_and_store_ideas_loop s raw e candidates :
  generate_ideas openai (ideas_per_run s) (category s) (outside s) = (raw, e) →
  Py.truthy raw = true →
  Py.iter raw = inr candidates →
  generate_and_store_ideas openai current_timestamp s =
    match
      for_each (process_idea openai current_timestamp) candidates
        {| existing_topics := Idea.topic <$> get_all_ideas (db s);
           new_count := 0; duplicate_count := 0 |}
        (with_outside e s)
    with
    | (inr l, s') =>
        with_outside
          (logger (IdeaGenerationComplete (new_count l) (duplicate_count l))
             (outside s')) s'
    | (inl ex, s') =>
        with_outside (logger (ErrorInIdeaGeneration ex) (outside s')) s'
    end.
Proof.
  intros Hgen Htruthy Hiter.
  unfold generate_and_store_ideas, try_except, ideas_body, bind, gets,
    generator, info, of_result.
  rewrite Hgen, Htruthy, Hiter. cbn [negb db with_outside].
  by destruct (for_each _ _ _ _) as [[ex|l] s'].
Qed.

(** ** C4: the similarity check fails open *)

(** C4: with topics to compare against, when the call of the similarity
    check raises, [is_similar_topic] returns [False]; the loop body then
    stores a candidate the store does not hold yet and counts it as new. *)
Theorem is_similar_topic_fail_open (new_topic : string)
    (existing : list string) (e : env) :
  existing ≠ [] →
  similarity_raises (openai (SimilarityRequest new_topic existing) (world e)).1 →
  (is_similar_topic openai new_topic existing e).1 = Py.JBool false
  ∧ ∀ idea description l s,
      candidate idea new_topic description → new_topic ≠ "" →
      existing_topics l = existing → outside s = e →
      idea_exists (db s) new_topic = false → 0 ≤ ideas_seq (db s) →
      ∃ idea_id s',
        process_idea openai current_timestamp idea l s
          = (inr (count_new new_topic l), s')
        ∧ idea_exists (db s') new_topic = true
        ∧ log (outside s') = log e ++ [AddedIdea idea_id new_topic].
Proof.
  intros Hne Hraises.
  assert ((is_similar_topic openai new_topic existing e).1 = Py.JBool false)
    as Hfalse.
  { rewrite is_similar_topic_calls by done. cbn [fst].
    destruct (openai _ _).1 as [|[[]|]]; done. }
  split; [done|].
  intros idea description l s Hcand Htopic <- <- Hnew Hseq.
  rewrite (process_idea_candidate _ _ _ _ _ Hcand).
  rewrite bool_decide_false, Hnew by done.
  destruct (is_similar_topic _ _ _ _) as [v e'] eqn:Hsim.
  cbn [fst] in Hfalse. subst v. cbn [Py.truthy].
  destruct (store_idea_fresh new_topic description l (with_outside e' s))
    as (idea_id & s' & Hstore & Hex & _ & Hlog); [done..|].
  exists idea_id, s'. split_and!; [done..|].
  rewrite Hlog. cbn [outside with_outside].
  rewrite is_similar_topic_calls in Hsim by done. by injection Hsim as _ <-.
Qed.

(** ** C9: nothing to compare against *)

(** C9: with no existing topics [is_similar_topic] returns [False] and
    leaves the outside world as it is, no request sent; the loop body then
    stores a candidate on a store without ideas, with no request either. *)
Theorem is_similar_topic_no_topics (new_topic : string) (e : env) :
  is_similar_topic openai new_topic [] e = (Py.JBool false, e)
  ∧ ∀ idea description l s,
      candidate idea new_topic description → new_topic ≠ "" →
      existing_topics l = [] → outside s = e →
      ideas (db s) = [] → 0 ≤ ideas_seq (db s) →
      get_all_ideas (db s) = []
      ∧ ∃ s',
          process_idea openai current_timestamp idea l s
            = (inr (count_new new_topic l), s')
          ∧ idea_exists (db s') new_topic = true
          ∧ calls (outside s') = calls e.
Proof.
  split; [reflexivity|].
  intros idea description l s Hcand Htopic Hl <- Hempty Hseq.
  split; [unfold get_all_ideas; by rewrite Hempty|].
  assert (idea_exists (db s) new_topic = false) as Hnew.
  { apply not_true_is_false. rewrite idea_exists_spec, Hempty. apply not_elem_of_nil. }
  rewrite (process_idea_candidate _ _ _ _ _ Hcand).
  rewrite bool_decide_false, Hnew, Hl by done. cbn [is_similar_topic Py.truthy].
  destruct (store_idea_fresh new_topic description l (with_outside (outside s) s))
    as (idea_id & s' & Hstore & Hex & Hcalls & _); [done..|].
  exists s'. split_and!; done.
Qed.

(** ** C6: the uniqueness constraint has the last word *)


(** ** C5: a batch is processed in order and sees its own additions *)

Lemma added_topics_app entries1 entries2 :
  added_topics (entries1 ++ entries2)
  = added_topics entries1 ++ added_topics entries2.
Proof. apply omap_app. Qed.

Lemma is_similar_topic_env new_topic existing e :
  log (is_similar_topic openai new_topic existing e).2 = log e
  ∧ (calls (is_similar_topic openai new_topic existing e).2 = calls e
     ∨ calls (is_similar_topic openai new_topic existing e).2
       = calls e ++ [SimilarityRequest new_topic existing]).
Proof.
  destruct existing as [|t ts]; [by split; [|left]|].
  rewrite is_similar_topic_calls by done. by split; [|right].
Qed.

Lemma store_idea_env topic description l s r s' :
  store_idea current_timestamp topic description l s = (r, s') →
  calls (outside s') = calls (outside s)
  ∧ ∃ entries,
      log (outside s') = log (outside s) ++ entries
      ∧ ∀ l', r = inr l' →
          existing_topics l' = existing_topics l ++ added_topics entries.
Proof.
  rewrite store_idea_eq, read_clock_eq.
  destruct (add_idea _ _ _ _) as [ex|[[i|] d]].
  - intros [= <- <-]. split; [done|]. exists []. by rewrite app_nil_r.
  - case_bool_decide; intros [= <- <-]; (split; [done|]).
    + exists [AddedIdea i topic]. split; [done|]. by intros l' [= <-].
    + exists []. rewrite !app_nil_r. split; [done|]. by intros l' [= <-].
  - intros [= <- <-]. split; [done|]. exists []. rewrite !app_nil_r.
    split; [done|]. by intros l' [= <-].
Qed.

(** What one turn of the loop does to the requests and to the log. *)
Lemma process_idea_env idea l s r s' :
  process_idea openai current_timestamp idea l s = (r, s') →
  (calls (outside s') = calls (outside s)
   ∨ ∃ t, calls (outside s')
          = calls (outside s) ++ [SimilarityRequest t (existing_topics l)])
  ∧ ∃ entries,
      log (outside s') = log (outside s) ++ entries
      ∧ ∀ l', r = inr l' →
          existing_topics l' = existing_topics l ++ added_topics entries.
Proof.
  destruct (process_idea_parse idea l s) as [[ex ->]|(topic & description & Hc)].
  { intros [= <- <-]. split; [by left|]. exists []. by rewrite app_nil_r. }
  rewrite (process_idea_candidate _ _ _ _ _ Hc).
  case_bool_decide.
  { intros [= <- <-]. split; [by left|]. exists [SkippingEmptyTopic].
    split; [done|]. intros l' [= <-]. by rewrite app_nil_r. }
  destruct (idea_exists _ _).
  { intros [= <- <-]. split; [by left|]. exists [DuplicateExact topic].
    split; [done|]. intros l' [= <-]. by rewrite app_nil_r. }
  pose proof (is_similar_topic_env topic (existing_topics l) (outside s))
    as [Hlog Hcalls].
  destruct (is_similar_topic _ _ _ _) as [v e]. cbn [snd] in Hlog, Hcalls.
  destruct (Py.truthy v).
  { intros [= <- <-]. cbn [outside with_outside logger calls log].
    split; [destruct Hcalls; eauto|]. exists [DuplicateSimilar topic].
    rewrite Hlog. split; [done|]. intros l' [= <-]. by rewrite app_nil_r. }
  intros (Hc' & entries & Hl & Ht)%store_idea_env.
  cbn [outside with_outside] in Hc', Hl. rewrite Hc', Hl, Hlog.
  split; [destruct Hcalls; eauto|]. by exists entries.
Qed.

Lemma for_each_process_idea_log items l s l' s' :
  for_each (process_idea openai current_timestamp) items l s = (inr l', s') →
  ∃ entries,
    log (outside s') = log (outside s) ++ entries
    ∧ existing_topics l' = existing_topics l ++ added_topics entries.
Proof.
  revert l s. induction items as [|idea items IH]; intros l s.
  { intros [= <- <-]. exists []. by rewrite !app_nil_r. }
  cbn [for_each]. unfold bind.
  destruct (process_idea _ _ _ _ _) as [[ex|l1] s1] eqn:Hstep; [done|].
  intros (entries2 & Hlog2 & Ht2)%IH.
  apply process_idea_env in Hstep as (_ & entries1 & Hlog1 & Ht1).
  exists (entries1 ++ entries2).
  rewrite Hlog2, Hlog1, Ht2, (Ht1 l1 eq_refl), added_topics_app, !app_assoc.
  done.
Qed.

(** C5: once the loop has gone through the items [pre] without raising,
    the topics it added are on [existing_topics], in the order they were
    added; the next item [B] is processed from exactly that state; if [B]
    reaches the similarity check, the request carries that list; hence,
    when [B] is judged similar to every list holding a topic [A] added
    before it, [B] is counted as a duplicate and the store stays as it is. *)
Theorem batch_sees_earlier_siblings (pre : list Py.json)
    (l0 l1 : idea_locals) (s0 s1 : service) :
  for_each (process_idea openai current_timestamp) pre l0 s0 = (inr l1, s1) →
  ∃ entries,
    log (outside s1) = log (outside s0) ++ entries
    ∧ existing_topics l1 = existing_topics l0 ++ added_topics entries
    ∧ ∀ B post,
        for_each (process_idea openai current_timestamp) (pre ++ B :: post) l0 s0
        = bind (process_idea openai current_timestamp B l1)
            (for_each (process_idea openai current_timestamp) post) s1
        ∧ (∀ r s2,
             process_idea openai current_timestamp B l1 s1 = (r, s2) →
             calls (outside s2) = calls (outside s1)
             ∨ ∃ t, calls (outside s2)
                    = calls (outside s1)
                      ++ [SimilarityRequest t (existing_topics l1)])
        ∧ (∀ A topic description,
             A ∈ added_topics entries →
             candidate B topic description → topic ≠ "" →
             (∀ topics w, A ∈ topics →
                says_similar (openai (SimilarityRequest topic topics) w).1) →
             ∃ s2,
               process_idea openai current_timestamp B l1 s1
                 = (inr (count_duplicate l1), s2)
               ∧ db s2 = db s1).
Proof.
  intros Hpre.
  destruct (for_each_process_idea_log _ _ _ _ _ Hpre) as (entries & Hlog & Ht).
  exists entries. split_and!; [done..|].
  intros B post. split_and!.
  - rewrite for_each_app. unfold bind at 1. rewrite Hpre. reflexivity.
  - intros r s2 Hstep. by apply process_idea_env in Hstep as [? _].
  - intros A topic description HA Hcand Htopic Hsim.
    rewrite (process_idea_candidate _ _ _ _ _ Hcand).
    rewrite bool_decide_false by done.
    destruct (idea_exists _ _); [by eexists|].
    assert (A ∈ existing_topics l1) as Hin
      by (rewrite Ht, elem_of_app; by right).
    assert (existing_topics l1 ≠ []) as Hne
      by (intros E; rewrite E in Hin; by apply not_elem_of_nil in Hin).
    rewrite is_similar_topic_calls by done.
    specialize (Hsim (existing_topics l1) (world (outside s1)) Hin).
    destruct (openai _ _).1 as [|[[]|]]; try done.
    cbn [says_similar] in Hsim. rewrite Hsim. by eexists.
Qed.

(** ** C8: a failed generation leaves the idea pending *)

Lemma db_add_content_db idea_id title body s r s' :
  db_add_content current_timestamp idea_id title body s = (r, s') →
  db s' = db s
  ∨ ∃ t b now content_id,
      add_content (db s) idea_id t b now = inr (content_id, db s').
Proof.
  unfold db_add_content. rewrite read_clock_eq.
  destruct (sqlite_bind title) as [ex|[t|]], (sqlite_bind body) as [ex'|[b|]];
    try (intros [= <- <-]; by left).
  cbn [db with_outside].
  destruct (add_content _ _ _ _ _) as [ex|[content_id d]] eqn:Hadd.
  - intros [= <- <-]. by left.
  - intros [= <- <-]. right. by eexists t, b, _, content_id.
Qed.

Lemma generate_content_env topic description word_count e :
  calls (generate_content openai topic description word_count e).2
  = calls e ++ [ArticleRequest topic description word_count]
  ∧ log (generate_content openai topic description word_count e).2 = log e
  ∧ world (generate_content openai topic description word_count e).2
    = (openai (ArticleRequest topic description word_count) (world e)).2.
Proof.
  unfold generate_content, chat_completions_create.
  destruct (openai _ _) as [response w].
  split_and!; by repeat case_match.
Qed.

(** The answer depends on the outside world only, not on what has been
    sent or logged. *)
Lemma generate_content_world topic description word_count e e' :
  world e = world e' →
  (generate_content openai topic description word_count e).1
  = (generate_content openai topic description word_count e').1.
Proof.
  intros Hw. unfold generate_content, chat_completions_create. rewrite Hw.
  destruct (openai _ _) as [response w]. by repeat case_match.
Qed.

Lemma generation_fails_world d e e' :
  world e = world e' →
  generation_fails openai d e → generation_fails openai d e'.
Proof.
  unfold generation_fails. intros Hw.
  by rewrite (generate_content_world _ _ _ e e' Hw).
Qed.

(** [db_add_content] raises and writes nothing, or both values are bound to
    text and [add_content] stores them. *)
Lemma db_add_content_cases idea_id title body s :
  (∃ ex s',
     db_add_content current_timestamp idea_id title body s = (inl ex, s')
     ∧ db s' = db s ∧ calls (outside s') = calls (outside s))
  ∨ (∃ t b content_id s',
       sqlite_bind title = inr (Some t) ∧ sqlite_bind body = inr (Some b)
       ∧ db_add_content current_timestamp idea_id title body s
         = (inr content_id, s')
       ∧ add_content (db s) idea_id t b
           (current_timestamp (world (outside s))).1
         = inr (content_id, db s')
       ∧ calls (outside s') = calls (outside s)).
Proof.
  unfold db_add_content. rewrite read_clock_eq.
  destruct (sqlite_bind title) as [ex|[t|]], (sqlite_bind body) as [ex'|[b|]];
    try (left; eexists _, _; split_and!; reflexivity).
  cbn [db with_outside]. rewrite add_content_eq.
  right. eexists t, b, _, _. split_and!; reflexivity.
Qed.

(** One turn of the loop: one request, and no write or one [add_content]
    that counts. *)
Lemma expand_idea_effect d n s r s' :
  expand_idea openai current_timestamp d n s = (r, s') →
  calls (outside s') = calls (outside s) ++ [article_request d]
  ∧ ((db s' = db s ∧ ∀ n', r = inr n' → n' = n)
     ∨ (r = inr (n + 1)
        ∧ ∃ t b now content_id,
            add_content (db s) (Pending.id d) t b now = inr (content_id, db s'))).
Proof.
  unfold expand_idea, bind, info, generator.
  cbn [fst snd outside with_outside].
  pose proof (generate_content_env (Pending.topic d) (Pending.description d) 800
                (logger (GeneratingContentFor (Pending.topic d)) (outside s)))
    as (Hcalls & _ & _).
  destruct (generate_content _ _ _ _ _) as [[result|] e];
    cbn [fst snd calls logger] in Hcalls;
    [|intros [= <- <-]; split; [done|]; left; split; [done|by intros n' [= <-]]].
  destruct (Py.truthy result);
    [|intros [= <- <-]; split; [done|]; left; split; [done|by intros n' [= <-]]].
  unfold of_result.
  destruct (Py.getitem result "title") as [ex|title];
    [intros [= <- <-]; split; [done|]; by left|].
  destruct (Py.getitem result "content") as [ex|body];
    [intros [= <- <-]; split; [done|]; by left|].
  match goal with
  | |- context [db_add_content _ ?i ?x ?y ?st] =>
      destruct (db_add_content_cases i x y st)
        as [(ex & s1 & -> & Hdb & Hc)
           |(t & b & content_id & s1 & _ & _ & -> & Hadd & Hc)]
  end;
    intros [= <- <-]; cbn [db outside with_outside logger calls] in *;
    rewrite Hc, Hcalls; (split; [done|]).
  - by left.
  - right. split; [done|]. by eexists _, _, _, _.
Qed.

Lemma expand_idea_db d n s r s' :
  expand_idea openai current_timestamp d n s = (r, s') →
  db s' = db s
  ∨ ¬ generation_fails openai d (outside s)
    ∧ ∃ t b now content_id,
        add_content (db s) (Pending.id d) t b now = inr (content_id, db s').
Proof.
  unfold expand_idea, bind, info, generator.
  cbn [fst snd outside with_outside].
  destruct (generate_content _ _ _ _ _) as [[result|] e] eqn:Hgen;
    [|intros [= <- <-]; by left].
  assert (¬ generation_fails openai d (outside s)) as Hnot.
  { unfold generation_fails.
    rewrite (generate_content_world _ _ _ _
               (logger (GeneratingContentFor (Pending.topic d)) (outside s)))
      by done.
    by rewrite Hgen. }
  destruct (Py.truthy result); [|intros [= <- <-]; by left].
  unfold of_result.
  destruct (Py.getitem result "title") as [ex|title]; [intros [= <- <-]; by left|].
  destruct (Py.getitem result "content") as [ex|body]; [intros [= <- <-]; by left|].
  destruct (db_add_content _ _ _ _ _) as [[ex|content_id] s1] eqn:Hadd;
    intros [= <- <-]; apply db_add_content_db in Hadd as [Hsame|Hadd];
    cbn [db with_outside] in *; eauto.
Qed.

Lemma expand_idea_failed d n s :
  generation_fails openai d (outside s) →
  ∃ s',
    expand_idea openai current_timestamp d n s = (inr n, s')
    ∧ db s' = db s
    ∧ content_per_run s' = content_per_run s
    ∧ calls (outside s') = calls (outside s) ++ [article_request d]
    ∧ log (outside s')
      = log (outside s)
        ++ [GeneratingContentFor (Pending.topic d);
            FailedToGenerate (Pending.topic d)].
Proof.
  unfold generation_fails. intros Hf.
  rewrite (generate_content_world _ _ _ _
             (logger (GeneratingContentFor (Pending.topic d)) (outside s)))
    in Hf by done.
  unfold expand_idea, bind, info, generator.
  cbn [fst snd outside with_outside].
  pose proof (generate_content_env (Pending.topic d) (Pending.description d) 800
                (logger (GeneratingContentFor (Pending.topic d)) (outside s)))
    as (Hcalls & Hlog & _).
  destruct (generate_content _ _ _ _ _) as [result e].
  cbn [fst snd logger calls log] in Hf, Hcalls, Hlog. subst result.
  eexists. split_and!; [reflexivity..| |].
  - cbn [outside with_outside logger calls]. exact Hcalls.
  - cbn [outside with_outside logger log]. by rewrite Hlog, <-app_assoc.
Qed.

Lemma pending_in_add_content d db idea_id title body now content_id db' :
  pending_in db d → idea_id ≠ Pending.id d →
  add_content db idea_id title body now = inr (content_id, db') →
  pending_in db' d.
Proof.
  intros (r & Hr & Hflag & ->) Hne. rewrite add_content_eq.
  intros [= _ <-]. exists r. cbn [ideas]. split_and!; [|done..].
  apply list_elem_of_fmap. exists r. split; [|done].
  unfold mark_generated. rewrite bool_decide_false; [done|].
  cbn in Hne. congruence.
Qed.

Lemma still_pending_add_content d db idea_id title body now content_id db' :
  still_pending d db → idea_id ≠ Pending.id d →
  add_content db idea_id title body now = inr (content_id, db') →
  still_pending d db'.
Proof.
  intros [Hin Hrefs] Hne Hadd.
  split; [by eapply pending_in_add_content|].
  rewrite add_content_eq in Hadd. injection Hadd as _ <-.
  unfold content_refs in *. cbn [content].
  rewrite fmap_app, elem_of_app. intros [?| ?%list_elem_of_singleton]; [done|].
  cbn in *. congruence.
Qed.

Lemma for_each_expand_idea_pending d items n s r s' :
  Forall (λ d', Pending.id d' ≠ Pending.id d) items →
  still_pending d (db s) →
  for_each (expand_idea openai current_timestamp) items n s = (r, s') →
  still_pending d (db s').
Proof.
  intros Hall. revert n s. induction Hall as [|d' items Hd' _ IH]; intros n s Hp.
  { by intros [= _ <-]. }
  cbn [for_each]. unfold bind.
  destruct (expand_idea _ _ _ _ _) as [[ex|n1] s1] eqn:Hstep.
  - intros [= _ <-].
    apply expand_idea_db in Hstep as [->|[Hnot (t & b & now & c & Hadd)]]; [done|].
    eapply still_pending_add_content; eauto.
  - apply IH.
    apply expand_idea_db in Hstep as [->|[Hnot (t & b & now & c & Hadd)]]; [done|].
    eapply still_pending_add_content; eauto.
Qed.

Lemma NoDup_fmap_eq {A B} (f : A → B) (rows : list A) x y :
  NoDup (f <$> rows) → x ∈ rows → y ∈ rows → f x = f y → x = y.
Proof.
  induction rows as [|z rows IH]; [by intros _ ?%not_elem_of_nil|].
  rewrite fmap_cons, NoDup_cons. intros [Hz Hnd].
  intros [->|Hx]%elem_of_cons [->|Hy]%elem_of_cons Heq; [done| | |by apply IH].
  - destruct Hz. rewrite Heq. by apply list_elem_of_fmap_2.
  - destruct Hz. rewrite <-Heq. by apply list_elem_of_fmap_2.
Qed.

Lemma still_pending_listed d db :
  still_pending d db →
  ∃ unlimited, get_pending_ideas db None = inr unlimited ∧ d ∈ unlimited.
Proof.
  intros [(r & Hr & Hflag & ->) _]. eexists. split; [reflexivity|].
  by apply list_elem_of_fmap_2, pending_rows_elem.
Qed.

Lemma generate_and_store_content_loop s pending :
  get_pending_ideas (db s) (Some (content_per_run s)) = inr pending →
  pending ≠ [] →
  generate_and_store_content openai current_timestamp s =
    match
      for_each (expand_idea openai current_timestamp) pending 0
        (with_outside
           (logger (FoundPending (Z.of_nat (length pending))) (outside s)) s)
    with
    | (inr generated_count, s') =>
        with_outside
          (logger (ContentGenerationComplete generated_count) (outside s')) s'
    | (inl ex, s') =>
        with_outside (logger (ErrorInContentGeneration ex) (outside s')) s'
    end.
Proof.
  intros Hpending Hne.
  unfold generate_and_store_content, try_except, content_body, bind, gets,
    of_result, info.
  rewrite Hpending. destruct pending as [|d0 rest]; [done|].
  by destruct (for_each _ _ _ _) as [[ex|n] s'].
Qed.

(** C8: when the call of [generate_content] for a pending idea returns
    [None], the loop body sends that one request, logs the failure, returns
    normally and leaves the store, hence the statistics, as they are; in a
    cycle on a well-formed store in which the call fails at the turn of the
    idea, the idea is still pending afterwards and no content references
    it, whatever happens to the other ideas of the batch; and when it is
    the only idea of the batch, the store and the statistics are left
    unchanged, the log records the failure and no error, and the next
    cycle asks for the article of the idea again. *)
Theorem failed_generation_keeps_pending (d : Pending.dict) (s : service) :
  (generation_fails openai d (outside s) →
   ∀ n, ∃ s',
     expand_idea openai current_timestamp d n s = (inr n, s')
     ∧ db s' = db s
     ∧ get_stats (db s') = get_stats (db s)
     ∧ calls (outside s') = calls (outside s) ++ [article_request d]
     ∧ log (outside s')
       = log (outside s)
         ++ [GeneratingContentFor (Pending.topic d);
             FailedToGenerate (Pending.topic d)])
  ∧ (∀ before after n1 s1,
       well_formed (db s) →
       get_pending_ideas (db s) (Some (content_per_run s))
       = inr (before ++ d :: after) →
       for_each (expand_idea openai current_timestamp) before 0
         (with_outside
            (logger (FoundPending (Z.of_nat (length (before ++ d :: after))))
               (outside s)) s)
       = (inr n1, s1) →
       generation_fails openai d (outside s1) →
       (∃ unlimited,
          get_pending_ideas
            (db (generate_and_store_content openai current_timestamp s)) None
          = inr unlimited
          ∧ d ∈ unlimited)
       ∧ Pending.id d
         ∉ content_refs (db (generate_and_store_content openai current_timestamp s)))
  ∧ (get_pending_ideas (db s) (Some (content_per_run s)) = inr [d] →
     generation_fails openai d (outside s) →
     db (generate_and_store_content openai current_timestamp s) = db s
     ∧ get_stats (db (generate_and_store_content openai current_timestamp s))
       = get_stats (db s)
     ∧ calls (outside (generate_and_store_content openai current_timestamp s))
       = calls (outside s) ++ [article_request d]
     ∧ log (outside (generate_and_store_content openai current_timestamp s))
       = log (outside s)
         ++ [FoundPending 1;
             GeneratingContentFor (Pending.topic d);
             FailedToGenerate (Pending.topic d);
             ContentGenerationComplete 0]
     ∧ calls (outside (generate_and_store_content openai current_timestamp
                         (generate_and_store_content openai current_timestamp s)))
       = calls (outside s) ++ [article_request d; article_request d]).
Proof.
  split_and!.
  - intros Hf n.
    destruct (expand_idea_failed d n s Hf) as (s' & E & Hdb & _ & Hcalls & Hlog).
    exists s'. by rewrite Hdb.
  - intros before after n1 s1 Hwf Hpending Hbefore Hf.
    pose proof (get_pending_ideas_ids _ _ _ (wf_ids _ Hwf) Hpending) as Hnd.
    rewrite fmap_app, fmap_cons in Hnd.
    apply NoDup_app in Hnd as (_ & Hdisj & [Hafter _]%NoDup_cons).
    assert (still_pending d (db s)) as Hp.
    { assert (pending_in (db s) d) as Hin.
      { eapply get_pending_ideas_elem; [exact Hpending|].
        rewrite elem_of_app. right. left. }
      split; [done|]. destruct Hin as (r & Hr & Hflag & ->).
      cbn [pending_dict Pending.id].
      rewrite <-(wf_consistent _ Hwf r Hr). congruence. }
    cut (still_pending d
           (db (generate_and_store_content openai current_timestamp s))).
    { intros Hp'. split; [by apply still_pending_listed|apply Hp']. }
    rewrite (generate_and_store_content_loop s _ Hpending)
      by (by destruct before).
    rewrite for_each_app. unfold bind at 1. rewrite Hbefore.
    assert (still_pending d (db s1)) as Hp1.
    { eapply for_each_expand_idea_pending; [| |exact Hbefore]; [|exact Hp].
      apply Forall_forall. intros d' Hd' Heq. apply (Hdisj (Pending.id d')).
      - by apply list_elem_of_fmap_2.
      - rewrite Heq. left. }
    cbn [for_each]. unfold bind at 1.
    destruct (expand_idea_failed d n1 s1 Hf) as (s2 & -> & Hdb & _).
    rewrite <-Hdb in Hp1.
    assert (Forall (λ d', Pending.id d' ≠ Pending.id d) after) as Hrest.
    { apply Forall_forall. intros d' Hd' Heq. apply Hafter. rewrite <-Heq.
      by apply list_elem_of_fmap_2. }
    destruct (for_each _ after _ _) as [[ex|n] s3] eqn:Hloop;
      by apply for_each_expand_idea_pending with (d := d) in Hloop.
  - intros Honly Hf.
    assert (∀ s0 : service,
              get_pending_ideas (db s0) (Some (content_per_run s0)) = inr [d] →
              calls (outside (generate_and_store_content openai
                                current_timestamp s0))
              = calls (outside s0) ++ [article_request d]) as Hcycle.
    { intros s0 H0. rewrite (generate_and_store_content_loop s0 _ H0) by done.
      cbn [for_each length]. unfold bind. change (Z.of_nat 1) with 1.
      destruct (expand_idea _ _ _ _ _) as [[ex|n] s1] eqn:Hstep;
        apply expand_idea_effect in Hstep as [Hcalls _];
        cbn [ret outside with_outside logger calls] in *; exact Hcalls. }
    rewrite (generate_and_store_content_loop s _ Honly) by done.
    cbn [for_each length]. unfold bind. change (Z.of_nat 1) with 1.
    destruct (expand_idea_failed d 0
                (with_outside (logger (FoundPending 1) (outside s)) s))
      as (s' & E & Hdb & Hper & Hcalls & Hlog);
      [by eapply generation_fails_world; [|exact Hf]|].
    rewrite E. cbn [ret db with_outside outside logger log calls] in *.
    set (s'' := with_outside _ s').
    assert (get_pending_ideas (db s'') (Some (content_per_run s'')) = inr [d])
      as Hagain.
    { unfold s''. cbn [db content_per_run with_outside]. by rewrite Hdb, Hper. }
    rewrite (Hcycle s'' Hagain). unfold s''.
    cbn [db with_outside outside logger log calls].
    rewrite Hdb, Hlog, Hcalls. split_and!; [done..| |];
      by rewrite <-?app_assoc.
Qed.

(** ** C3: the insert and the flag are one transaction *)

Lemma content_refs_step idea_id db db' :
  flagged idea_id db → db_step db db' →
  filter (λ c, Content.idea_id c = idea_id) (content db')
  = filter (λ c, Content.idea_id c = idea_id) (content db).
Proof.
  intros [_ Hflag] Hstep. destruct Hstep as
    [db topic description now r db' Hadd
    |db other title body now content_id db' (row & Hrow & Hid & Hpending) Hadd].
  - destruct (add_idea_cases db topic description now) as [[_ E]|[_ E]];
      rewrite E in Hadd; by injection Hadd as <- <-.
  - rewrite add_content_eq in Hadd. injection Hadd as <- <-. cbn [content].
    rewrite filter_app, filter_cons_False, filter_nil, app_nil_r; [done|].
    cbn. intros <-. specialize (Hflag row Hrow Hid). congruence.
Qed.

Lemma content_refs_steps idea_id db db' :
  flagged idea_id db → rtc db_step db db' →
  filter (λ c, Content.idea_id c = idea_id) (content db')
  = filter (λ c, Content.idea_id c = idea_id) (content db).
Proof.
  intros Hf Hsteps. induction Hsteps as [|db db1 db2 Hstep _ IH]; [done|].
  rewrite IH by eauto using flagged_step. by apply content_refs_step.
Qed.

(** The pipelines write to the store through [db_step] only. *)
Lemma process_idea_steps idea l s r s' :
  process_idea openai current_timestamp idea l s = (r, s') →
  rtc db_step (db s) (db s').
Proof.
  destruct (process_idea_parse idea l s) as [[ex ->]|(topic & description & Hc)];
    [by intros [= _ <-]|].
  rewrite (process_idea_candidate _ _ _ _ _ Hc).
  case_bool_decide; [by intros [= _ <-]|].
  destruct (idea_exists _ _); [by intros [= _ <-]|].
  destruct (is_similar_topic _ _ _ _) as [v e].
  destruct (Py.truthy v); [by intros [= _ <-]|].
  rewrite store_idea_eq, read_clock_eq. cbn [db with_outside outside].
  destruct (add_idea _ _ _ _) as [ex|[[i|] d]] eqn:Hadd.
  - by intros [= _ <-].
  - case_bool_decide; intros [= _ <-]; cbn [db with_outside with_db];
      eapply rtc_once, step_add_idea, Hadd.
  - intros [= _ <-]. eapply rtc_once, step_add_idea, Hadd.
Qed.

Lemma for_each_process_idea_steps items l s r s' :
  for_each (process_idea openai current_timestamp) items l s = (r, s') →
  rtc db_step (db s) (db s').
Proof.
  revert l s. induction items as [|idea items IH]; intros l s.
  { by intros [= _ <-]. }
  cbn [for_each]. unfold bind.
  destruct (process_idea _ _ _ _ _) as [[ex|l1] s1] eqn:Hstep;
    apply process_idea_steps in Hstep.
  - by intros [= _ <-].
  - intros Hrest%IH. by etrans.
Qed.

Lemma generate_and_store_ideas_steps s :
  rtc db_step (db s) (db (generate_and_store_ideas openai current_timestamp s)).
Proof.
  unfold generate_and_store_ideas, try_except, ideas_body, bind, gets,
    generator, info, of_result.
  destruct (generate_ideas _ _ _ _) as [raw e].
  destruct (Py.truthy raw); cbn [negb]; [|done].
  destruct (Py.iter raw) as [ex|candidates]; [done|].
  destruct (for_each _ _ _ _) as [[ex|l] s1] eqn:Hloop;
    by apply for_each_process_idea_steps in Hloop.
Qed.

Lemma expand_idea_step d n s r s' :
  pending_in (db s) d →
  expand_idea openai current_timestamp d n s = (r, s') →
  db s' = db s
  ∨ db_step (db s) (db s')
    ∧ ∃ t b now content_id,
        add_content (db s) (Pending.id d) t b now = inr (content_id, db s').
Proof.
  intros (row & Hrow & Hflag & ->) Hstep.
  apply expand_idea_db in Hstep as [?|[_ (t & b & now & c & Hadd)]]; [by left|].
  right. split; [|by eauto].
  eapply step_add_content; [|exact Hadd]. by exists row.
Qed.

Lemma for_each_expand_idea_steps items n s r s' :
  NoDup (Pending.id <$> items) →
  Forall (pending_in (db s)) items →
  for_each (expand_idea openai current_timestamp) items n s = (r, s') →
  rtc db_step (db s) (db s').
Proof.
  revert n s. induction items as [|d items IH]; intros n s Hnd Hall.
  { by intros [= _ <-]. }
  rewrite fmap_cons, NoDup_cons in Hnd. destruct Hnd as [Hd Hnd].
  apply Forall_cons in Hall as [Hin Hall].
  cbn [for_each]. unfold bind.
  destruct (expand_idea _ _ _ _ _) as [[ex|n1] s1] eqn:Hstep;
    apply expand_idea_step in Hstep as [Hsame|[Hdb (t & b & now & c & Hadd)]];
    try done.
  - intros [= _ <-]. by rewrite Hsame.
  - intros [= _ <-]. by apply rtc_once.
  - rewrite <-Hsame in Hall |- *. by apply IH.
  - intros Hrest. eapply rtc_l; [exact Hdb|]. eapply IH; [done| |exact Hrest].
    apply Forall_forall. intros d' Hd'.
    apply (pending_in_add_content d' (db s) (Pending.id d) t b now c (db s1));
      [by eapply Forall_forall in Hall| |done].
    intros Heq. apply Hd. rewrite Heq. by apply list_elem_of_fmap_2.
Qed.

Lemma generate_and_store_content_steps s :
  well_formed (db s) →
  rtc db_step (db s) (db (generate_and_store_content openai current_timestamp s)).
Proof.
  intros Hwf.
  destruct (get_pending_ideas (db s) (Some (content_per_run s)))
    as [ex|pending] eqn:Hpending.
  { unfold generate_and_store_content, try_except, content_body, bind, gets,
      of_result, info. by rewrite Hpending. }
  pose proof (get_pending_ideas_ids _ _ _ (wf_ids _ Hwf) Hpending) as Hnd.
  assert (Forall (pending_in (db s)) pending) as Hall.
  { apply Forall_forall. intros d Hd. by eapply get_pending_ideas_elem. }
  destruct (decide (pending = [])) as [->|Hne].
  { unfold generate_and_store_content, try_except, content_body, bind, gets,
      of_result, info. by rewrite Hpending. }
  rewrite (generate_and_store_content_loop s _ Hpending Hne).
  destruct (for_each _ _ _ _) as [[ex|n] s1] eqn:Hloop;
    by apply for_each_expand_idea_steps in Hloop.
Qed.

(** C3: the pipelines keep the store within the states reached through
    [add_idea] and [add_content] on pending ideas; in every such state an
    idea is flagged exactly when a content row references it; there,
    [add_content] on a stored idea without content succeeds, every state
    another connection reads while it runs is the state before or the state
    after (both consistent), and in the state after and in every later
    state exactly one content row references the idea and no answer of
    [get_pending_ideas] holds it. *)
Theorem add_content_atomic (s : service) :
  reachable (db s) →
  reachable (db (run_cycle openai current_timestamp s))
  ∧ consistent (db s)
  ∧ ∀ idea_id title body now,
      idea_id ∈ idea_ids (db s) → idea_id ∉ content_refs (db s) →
      ∃ content_id db',
        add_content (db s) idea_id title body now = inr (content_id, db')
        ∧ (∀ c, c ∈ add_content_trace (db s) idea_id title body now →
             (committed c = db s ∨ committed c = db') ∧ consistent (committed c))
        ∧ close <$> last (add_content_trace (db s) idea_id title body now)
          = Some db'
        ∧ ∀ db'', rtc db_step db' db'' →
            length (filter (λ c, Content.idea_id c = idea_id) (content db''))
            = 1%nat
            ∧ ∀ limit rows d,
                get_pending_ideas db'' limit = inr rows → d ∈ rows →
                Pending.id d ≠ idea_id.
Proof.
  intros Hreach. pose proof (reachable_well_formed _ Hreach) as Hwf.
  split_and!; [|apply Hwf|].
  { unfold run_cycle, reachable.
    etrans; [exact Hreach|]. etrans; [apply generate_and_store_ideas_steps|].
    apply generate_and_store_content_steps.
    eapply well_formed_steps; [exact Hwf|apply generate_and_store_ideas_steps]. }
  intros idea_id title body now Hin Hnone.
  destruct (add_content (db s) idea_id title body now)
    as [e|[content_id db']] eqn:Hadd;
    [rewrite add_content_eq in Hadd; discriminate|].
  exists content_id, db'.
  assert (well_formed db') as Hwf'
    by (eapply well_formed_add_content; eauto).
  assert (flagged idea_id db') as Hflagged
    by (eapply flagged_add_content; eauto).
  pose proof Hadd as Heq. rewrite add_content_eq in Heq. injection Heq as Hid Hdb.
  split_and!; [done| | |].
  - intros c Hc. unfold add_content_trace in Hc.
    cbn [insert_content get_connection foreign_keys andb] in Hc.
    assert (committed c = db s ∨ committed c = db') as Hcases.
    { rewrite <-Hdb.
      repeat (apply elem_of_cons in Hc as [->|Hc]; [by (left + right)|]).
      inversion Hc. }
    split; [done|]. destruct Hcases as [->| ->]; [apply Hwf|apply Hwf'].
  - rewrite <-Hdb. reflexivity.
  - intros db'' Hsteps. split.
    + rewrite (content_refs_steps idea_id db' db'') by done.
      rewrite <-Hdb. cbn [content].
      rewrite filter_app, filter_refs_nil by done.
      rewrite filter_cons_True by done. reflexivity.
    + intros limit rows d Hrows Hd.
      eapply flagged_not_pending; [|exact Hrows|exact Hd].
      by eapply flagged_steps.
Qed.

(** ** C10: no more ideas than requested *)


End Properties.

(** ** The properties at concrete inputs *)

Lemma candidate_idea_json topic description :
  candidate (idea_json topic description) (Py.strip topic) (Py.strip description).
Proof. eexists _, topic, description. split_and!; reflexivity. Defined.



Lemma is_similar_topic_fail_open_witness :
  (is_similar_topic backend_down "B" ["A"] quiet).1 = Py.JBool false
  ∧ ∃ idea_id s',
      process_idea backend_down stopped_clock (idea_json "B" "b") locals_A
        (service_on one_pending)
      = (inr (count_new "B" locals_A), s')
      ∧ idea_exists (db s') "B" = true
      ∧ log (outside s') = log quiet ++ [AddedIdea idea_id "B"].
Proof.
  destruct (is_similar_topic_fail_open backend_down stopped_clock "B" ["A"] quiet)
    as [Hfalse Haccept]; [done|exact I|].
  split; [exact Hfalse|].
  apply (Haccept (idea_json "B" "b") "b" locals_A (service_on one_pending));
    [apply (candidate_idea_json "B" "b")|done|reflexivity|reflexivity
    |reflexivity|vm_compute; discriminate].
Defined.

Lemma is_similar_topic_no_topics_witness :
  is_similar_topic backend_all_similar "A" [] quiet = (Py.JBool false, quiet)
  ∧ get_all_ideas (db (service_on empty_database)) = []
  ∧ ∃ s',
      process_idea backend_all_similar stopped_clock (idea_json "A" "a")
        no_locals (service_on empty_database)
      = (inr (count_new "A" no_locals), s')
      ∧ idea_exists (db s') "A" = true
      ∧ calls (outside s') = calls quiet.
Proof.
  destruct (is_similar_topic_no_topics backend_all_similar stopped_clock "A" quiet)
    as [Hfalse Hfirst].
  split; [exact Hfalse|].
  apply (Hfirst (idea_json "A" "a") "a" no_locals (service_on empty_database));
    [apply (candidate_idea_json "A" "a")|done|reflexivity|reflexivity
    |reflexivity|vm_compute; discriminate].
Defined.


Lemma batch_sees_earlier_siblings_witness :
  for_each (process_idea backend_all_similar stopped_clock)
    [idea_json "A" "a"] no_locals (service_on empty_database)
  = (inr after_A.1, after_A.2)
  ∧ existing_topics after_A.1 = existing_topics no_locals ++ ["A"]
  ∧ ∃ s2,
      process_idea backend_all_similar stopped_clock (idea_json "B" "b")
        after_A.1 after_A.2
      = (inr (count_duplicate after_A.1), s2)
      ∧ db s2 = db after_A.2.
Proof.
  assert (for_each (process_idea backend_all_similar stopped_clock)
            [idea_json "A" "a"] no_locals (service_on empty_database)
          = (inr after_A.1, after_A.2)) as Hpre by reflexivity.
  destruct (batch_sees_earlier_siblings backend_all_similar stopped_clock
              _ _ _ _ _ Hpre) as (entries & Hlog & Htopics & Hnext).
  cbn in Hlog. subst entries.
  split; [exact Hpre|]. split; [exact Htopics|].
  destruct (Hnext (idea_json "B" "b") []) as (_ & _ & Hdup).
  apply (Hdup "A" "B" "b");
    [left|apply (candidate_idea_json "B" "b")|done|intros; reflexivity].
Defined.

Lemma failed_generation_keeps_pending_witness :
  (∀ n, ∃ s',
     expand_idea backend_transient clock_transient pending_A n service_transient
       = (inr n, s')
     ∧ db s' = one_pending
     ∧ get_stats (db s') = get_stats one_pending
     ∧ calls (outside s') = [article_request pending_A]
     ∧ log (outside s')
       = [GeneratingContentFor "A"; FailedToGenerate "A"])
  ∧ ((∃ unlimited,
        get_pending_ideas
          (db (generate_and_store_content backend_transient clock_transient
                 service_transient)) None
        = inr unlimited
        ∧ pending_A ∈ unlimited)
     ∧ Pending.id pending_A
       ∉ content_refs
           (db (generate_and_store_content backend_transient clock_transient
                  service_transient)))
  ∧ db (generate_and_store_content backend_transient clock_transient
          service_transient) = one_pending
  ∧ calls (outside (generate_and_store_content backend_transient clock_transient
                      (generate_and_store_content backend_transient
                         clock_transient service_transient)))
    = [article_request pending_A; article_request pending_A].
Proof.
  destruct (failed_generation_keeps_pending backend_transient clock_transient
              pending_A service_transient)
    as (Hstep & Hcycle & Honly).
  split; [apply Hstep; reflexivity|]. split.
  - apply (Hcycle [] [] 0
             (with_outside (logger (FoundPending 1) (outside service_transient))
                service_transient));
      [apply reachable_well_formed, one_pending_reachable|reflexivity..].
  - destruct Honly as (Hdb & _ & _ & _ & Hcalls); [reflexivity..|].
    split; [exact Hdb|exact Hcalls].
Defined.

(** The cycle after the failed one stores the article. *)
Example retried_on_the_next_cycle :
  get_content_by_idea
    (db (generate_and_store_content backend_transient clock_transient
           service_transient)) 1
  = None
  ∧ get_content_by_idea
      (db (generate_and_store_content backend_transient clock_transient
             (generate_and_store_content backend_transient clock_transient
                service_transient))) 1
    = Some {| Article.id := 1; Article.title := "Title";
              Article.content := "Body"; Article.created_at := 200;
              Article.topic := "A" |}.
Proof. split; by vm_compute. Qed.

Lemma add_content_atomic_witness :
  reachable (db (run_cycle backend_down stopped_clock (service_on one_pending)))
  ∧ consistent one_pending
  ∧ ∃ content_id db',
      add_content one_pending 1 "Title" "Body" 200 = inr (content_id, db')
      ∧ (∀ c, c ∈ add_content_trace one_pending 1 "Title" "Body" 200 →
           (committed c = one_pending ∨ committed c = db')
           ∧ consistent (committed c))
      ∧ close <$> last (add_content_trace one_pending 1 "Title" "Body" 200)
        = Some db'
      ∧ ∀ db'', rtc db_step db' db'' →
          length (filter (λ c, Content.idea_id c = 1) (content db'')) = 1%nat
          ∧ ∀ limit rows d,
              get_pending_ideas db'' limit = inr rows → d ∈ rows →
              Pending.id d ≠ 1.
Proof.
  destruct (add_content_atomic backend_down stopped_clock
              (service_on one_pending) one_pending_reachable)
    as (Hcycle & Hc & H).
  split; [exact Hcycle|]. split; [exact Hc|]. apply H.
  - apply (bool_decide_unpack _). vm_compute. exact I.
  - apply (bool_decide_unpack _). vm_compute. exact I.
Defined.

(** * Further properties of the code *)

(** ** [str.strip] *)

Lemma rstrip_unfold c s :
  Py.rstrip (String c s) =
    match Py.rstrip s with
    | EmptyString => if Py.isspace c then EmptyString else String c EmptyString
    | r => String c r
    end.
Proof. reflexivity. Qed.

Lemma rstrip_cons_nonspace c s :
  Py.isspace c = false → Py.rstrip (String c s) = String c (Py.rstrip s).
Proof. intros H. rewrite rstrip_unfold, H. by destruct (Py.rstrip s). Qed.

Lemma rstrip_idemp s : Py.rstrip (Py.rstrip s) = Py.rstrip s.
Proof.
  induction s as [|c s IH]; [done|].
  rewrite rstrip_unfold. destruct (Py.rstrip s) as [|c' r] eqn:E.
  - destruct (Py.isspace c) eqn:Hc; [done|].
    by rewrite rstrip_cons_nonspace.
  - by rewrite rstrip_unfold, IH.
Qed.

Lemma lstrip_head s :
  match Py.lstrip s with
  | EmptyString => True
  | String c _ => Py.isspace c = false
  end.
Proof.
  induction s as [|c s IH]; [done|]. simpl.
  destruct (Py.isspace c) eqn:Hc; [done|]. exact Hc.
Qed.

Lemma strip_idemp s : Py.strip (Py.strip s) = Py.strip s.
Proof.
  unfold Py.strip. pose proof (lstrip_head s) as Hhead.
  destruct (Py.lstrip s) as [|c x]; [done|].
  rewrite rstrip_cons_nonspace by done. simpl Py.lstrip at 1. rewrite Hhead.
  by rewrite <-rstrip_cons_nonspace, rstrip_idemp.
Qed.

(** ** The queries of the store *)

Global Instance created_at_desc_trans : Transitive created_at_desc.
Proof. intros r1 r2 r3. unfold created_at_desc. lia. Qed.

(** X1: [get_all_ideas] lists every row of [ideas] exactly once, newest
    first (ties allowed). *)
Theorem get_all_ideas_newest_first (db : database) :
  get_all_ideas db ≡ₚ ideas db
  ∧ StronglySorted created_at_desc (get_all_ideas db).
Proof.
  split; [apply order_by_Permutation|].
  apply (StronglySorted_order_by _).
Qed.

Lemma length_filter_flags (rows : list Idea.row) :
  length rows
  = (length (filter (λ r, Idea.content_generated r = true) rows)
     + length (filter (λ r, Idea.content_generated r = false) rows))%nat.
Proof.
  induction rows as [|r rows IH]; [done|].
  rewrite !filter_cons. destruct (Idea.content_generated r) eqn:E.
  - rewrite decide_True, decide_False by done. simpl. lia.
  - rewrite decide_False, decide_True by done. simpl. lia.
Qed.

(** X2: the statistics agree with the pending list: [pending_ideas] is the
    number of dictionaries the unlimited [get_pending_ideas] returns, it is
    not negative, and the ideas split into those with content and those
    pending. *)
Theorem get_stats_pending (db : database) :
  (∃ unlimited,
     get_pending_ideas db None = inr unlimited
     ∧ pending_ideas (get_stats db) = Z.of_nat (length unlimited))
  ∧ 0 ≤ pending_ideas (get_stats db)
  ∧ total_ideas (get_stats db)
    = ideas_with_content (get_stats db) + pending_ideas (get_stats db).
Proof.
  assert (pending_ideas (get_stats db)
          = Z.of_nat (length (pending_dict <$> pending_rows db))) as H.
  { unfold get_stats, pending_rows.
    cbn [pending_ideas]. rewrite length_fmap, order_by_Permutation.
    rewrite (length_filter_flags (ideas db)). lia. }
  split_and!; [by eexists|lia|]. unfold get_stats. cbn. lia.
Qed.

(** X3: the limit keeps the oldest: for a limit [K] from 1 to 2^63 - 1 the
    unlimited answer is the limited one followed by ideas none of which is
    older than any idea returned, and nothing is left out when at most [K]
    are pending; for a limit of 2^63 or more the call raises. *)
Theorem get_pending_ideas_keeps_oldest (db : database) :
  (∀ K, 0 < K < 2 ^ 63 →
     ∃ limited unlimited rest,
       get_pending_ideas db (Some K) = inr limited
       ∧ get_pending_ideas db None = inr unlimited
       ∧ unlimited = limited ++ rest
       ∧ (∀ a b, a ∈ limited → b ∈ rest →
            Pending.created_at a ≤ Pending.created_at b)
       ∧ (Z.of_nat (length unlimited) ≤ K → rest = []))
  ∧ (∀ K, 2 ^ 63 ≤ K → ∃ ex, get_pending_ideas db (Some K) = inl ex).
Proof.
  split.
  - intros K HK.
    exists (take (Z.to_nat K) (pending_dict <$> pending_rows db)),
      (pending_dict <$> pending_rows db),
      (drop (Z.to_nat K) (pending_dict <$> pending_rows db)).
    split; [by apply get_pending_ideas_limit|].
    split; [apply get_pending_ideas_None|]. split_and!.
    + by rewrite take_drop.
    + pose proof (get_pending_ideas_ascending db None _
                    (get_pending_ideas_None db)) as Hs.
      unfold ascending in Hs.
      rewrite <-(take_drop (Z.to_nat K) (pending_dict <$> pending_rows db)) in Hs.
      intros a b Ha Hb.
      exact (StronglySorted_app_1_elem_of _ _ _ a b Hs Ha Hb).
    + intros Hlen. apply drop_ge. lia.
  - intros K HK.
    destruct (get_pending_ideas_raises db K) as [->| ->]; [lia|by eexists..].
Qed.

Lemma get_pending_ideas_keeps_oldest_witness :
  (∃ limited unlimited rest,
     get_pending_ideas same_second (Some 1) = inr limited
     ∧ get_pending_ideas same_second None = inr unlimited
     ∧ unlimited = limited ++ rest
     ∧ (∀ a b, a ∈ limited → b ∈ rest →
          Pending.created_at a ≤ Pending.created_at b)
     ∧ (Z.of_nat (length unlimited) ≤ 1 → rest = []))
  ∧ ∃ ex, get_pending_ideas same_second (Some (2 ^ 63)) = inl ex.
Proof.
  destruct (get_pending_ideas_keeps_oldest same_second) as [Hin Hout].
  split; [apply (Hin 1); lia|apply (Hout (2 ^ 63)); lia].
Defined.

(** ** Inserting and finding ideas *)

Lemma filter_flagged_snoc (rows : list Idea.row) i t d n :
  filter (λ r, Idea.content_generated r = true) (rows ++ [Idea.Row i t d n false])
  = filter (λ r, Idea.content_generated r = true) rows.
Proof.
  rewrite filter_app, filter_cons_False, filter_nil, app_nil_r; done.
Qed.

(** X4: a successful [add_idea] returns an id above every id of the table,
    appends one unflagged row holding the stripped topic and description,
    leaves [content] alone, shows up in the unlimited pending list, and
    moves the statistics by one idea, pending. *)
Theorem add_idea_round_trip (db db' : database) (topic description : string)
    (now idea_id : Z) :
  add_idea db topic description now = inr (Some idea_id, db') →
  (∀ i, i ∈ idea_ids db → i < idea_id)
  ∧ ideas db'
    = ideas db
      ++ [Idea.Row idea_id (Py.strip topic) (Py.strip description) now false]
  ∧ content db' = content db
  ∧ (∃ unlimited,
       get_pending_ideas db' None = inr unlimited
       ∧ Pending.Dict idea_id (Py.strip topic) (Py.strip description) now
         ∈ unlimited)
  ∧ total_ideas (get_stats db') = total_ideas (get_stats db) + 1
  ∧ pending_ideas (get_stats db') = pending_ideas (get_stats db) + 1
  ∧ ideas_with_content (get_stats db') = ideas_with_content (get_stats db)
  ∧ total_content_pieces (get_stats db') = total_content_pieces (get_stats db).
Proof.
  intros Hadd.
  destruct (add_idea_cases db topic description now) as [[_ E]|[_ E]];
    rewrite E in Hadd; [discriminate|].
  injection Hadd as <- <-. cbn [ideas content].
  split_and!; [|done|done| | | | |done].
  - intros i Hi. by apply next_rowid_fresh.
  - eexists. split; [apply get_pending_ideas_None|].
    set (row := Idea.Row _ _ _ _ _).
    change (Pending.Dict _ _ _ _) with (pending_dict row).
    apply list_elem_of_fmap_2, pending_rows_elem. split; [|done].
    cbn [ideas]. rewrite elem_of_app. right. left.
  - unfold get_stats. cbn [total_ideas ideas]. rewrite length_app. cbn. lia.
  - unfold get_stats. cbn [pending_ideas ideas].
    rewrite filter_flagged_snoc, length_app. cbn. lia.
  - unfold get_stats. cbn [ideas_with_content ideas].
    by rewrite filter_flagged_snoc.
Qed.

Lemma add_idea_round_trip_witness :
  (∀ i, i ∈ idea_ids one_pending → i < 2)
  ∧ ideas (after_add_idea one_pending " B " " b " 200)
    = ideas one_pending ++ [Idea.Row 2 "B" "b" 200 false]
  ∧ content (after_add_idea one_pending " B " " b " 200) = content one_pending
  ∧ (∃ unlimited,
       get_pending_ideas (after_add_idea one_pending " B " " b " 200) None
       = inr unlimited
       ∧ Pending.Dict 2 "B" "b" 200 ∈ unlimited)
  ∧ total_ideas (get_stats (after_add_idea one_pending " B " " b " 200))
    = total_ideas (get_stats one_pending) + 1
  ∧ pending_ideas (get_stats (after_add_idea one_pending " B " " b " 200))
    = pending_ideas (get_stats one_pending) + 1
  ∧ ideas_with_content (get_stats (after_add_idea one_pending " B " " b " 200))
    = ideas_with_content (get_stats one_pending)
  ∧ total_content_pieces (get_stats (after_add_idea one_pending " B " " b " 200))
    = total_content_pieces (get_stats one_pending).
Proof.
  apply (add_idea_round_trip one_pending _ " B " " b " 200 2). reflexivity.
Defined.

Lemma stripped_step db db' : stripped db → db_step db db' → stripped db'.
Proof.
  unfold stripped. intros Hs Hstep. destruct Hstep as
    [db topic description now r db' Hadd
    |db idea_id title body now content_id db' _ Hadd].
  - destruct (add_idea_cases db topic description now) as [[_ E]|[_ E]];
      rewrite E in Hadd; injection Hadd as <- <-; [done|].
    intros row [Hrow| ->%list_elem_of_singleton]%elem_of_app; [auto|].
    cbn [Idea.topic Idea.description]. by rewrite !strip_idemp.
  - rewrite add_content_eq in Hadd. injection Hadd as <- <-.
    intros row (r & -> & Hr)%list_elem_of_fmap.
    unfold mark_generated.
    case_bool_decide; cbn [Idea.topic Idea.description]; auto.
Qed.

Lemma reachable_stripped db : reachable db → stripped db.
Proof.
  unfold reachable. revert db. apply rtc_ind_r.
  - intros r Hr. inversion Hr.
  - intros db db' _ Hstep Hs. by eapply stripped_step.
Qed.

(** X5: [idea_exists] does not see surrounding whitespace, and in every
    store the pipelines reach each stored topic is stripped, is found by
    [idea_exists], and is refused by [add_idea] with the store unchanged. *)
Theorem idea_exists_stored (db : database) :
  (∀ topic, idea_exists db (Py.strip topic) = idea_exists db topic)
  ∧ (reachable db →
     ∀ r, r ∈ ideas db →
       Py.strip (Idea.topic r) = Idea.topic r
       ∧ idea_exists db (Idea.topic r) = true
       ∧ ∀ description now,
           add_idea db (Idea.topic r) description now = inr (None, db)).
Proof.
  split.
  - intros topic. unfold idea_exists. by rewrite strip_idemp.
  - intros Hreach r Hr.
    destruct (reachable_stripped db Hreach r Hr) as [Ht _].
    assert (Py.strip (Idea.topic r) ∈ Idea.topic <$> ideas db) as Hin
      by (rewrite Ht; by apply list_elem_of_fmap_2).
    split_and!; [done|by apply idea_exists_spec|].
    intros description now.
    destruct (add_idea_cases db (Idea.topic r) description now)
      as [[_ E]|[Hn _]]; done.
Qed.

Lemma idea_exists_stored_witness :
  reachable one_pending
  ∧ (∀ r, r ∈ ideas one_pending →
       Py.strip (Idea.topic r) = Idea.topic r
       ∧ idea_exists one_pending (Idea.topic r) = true
       ∧ ∀ description now,
           add_idea one_pending (Idea.topic r) description now
           = inr (None, one_pending)).
Proof.
  split; [exact one_pending_reachable|].
  destruct (idea_exists_stored one_pending) as [_ H].
  apply H, one_pending_reachable.
Defined.

(** ** Content rows and statistics *)

Lemma refs_nodup_step db db' :
  well_formed db → NoDup (content_refs db) → db_step db db' →
  NoDup (content_refs db').
Proof.
  intros Hwf Hnd Hstep. destruct Hstep as
    [db topic description now r db' Hadd
    |db idea_id title body now content_id db' (row & Hrow & Hid & Hflag) Hadd].
  - destruct (add_idea_cases db topic description now) as [[_ E]|[_ E]];
      rewrite E in Hadd; by injection Hadd as <- <-.
  - rewrite add_content_eq in Hadd. injection Hadd as <- <-.
    unfold content_refs in *. cbn [content]. rewrite fmap_app.
    apply NoDup_app. split_and!; [done| |apply NoDup_singleton].
    intros i Hi Hnew. apply list_elem_of_singleton in Hnew.
    cbn in Hnew. subst i.
    assert (Idea.content_generated row = true) as Htrue; [|congruence].
    apply (wf_consistent _ Hwf row Hrow). rewrite Hid. exact Hi.
Qed.

Lemma reachable_refs_nodup db : reachable db → NoDup (content_refs db).
Proof.
  unfold reachable. revert db. apply rtc_ind_r.
  - apply NoDup_nil_2.
  - intros db db' Hreach Hstep Hnd.
    eapply refs_nodup_step; [|done..]. by apply reachable_well_formed.
Qed.

(** X6: in every store the pipelines reach there are as many content rows
    as flagged ideas, so [total_content_pieces] equals [ideas_with_content]
    and [pending_ideas] is [total_ideas] less [total_content_pieces]. *)
Theorem get_stats_content_matches (db : database) :
  reachable db →
  total_content_pieces (get_stats db) = ideas_with_content (get_stats db)
  ∧ pending_ideas (get_stats db)
    = total_ideas (get_stats db) - total_content_pieces (get_stats db)
  ∧ total_content_pieces (get_stats db) ≤ total_ideas (get_stats db).
Proof.
  intros Hreach. pose proof (reachable_well_formed _ Hreach) as Hwf.
  assert (content_refs db
          ≡ₚ Idea.id <$> filter (λ r, Idea.content_generated r = true) (ideas db))
    as Hperm.
  { apply NoDup_Permutation.
    - by apply reachable_refs_nodup.
    - eapply sublist_NoDup; [apply (wf_ids _ Hwf)|].
      apply fmap_sublist, sublist_filter.
    - intros i. rewrite list_elem_of_fmap. split.
      + intros Hi. pose proof (wf_refs _ Hwf i Hi) as Hid.
        apply list_elem_of_fmap in Hid as (r & -> & Hr).
        exists r. split; [done|]. apply list_elem_of_filter. split; [|done].
        by apply (wf_consistent _ Hwf r Hr).
      + intros (r & -> & [Hflag Hr]%list_elem_of_filter).
        by apply (wf_consistent _ Hwf r Hr). }
  apply Permutation_length in Hperm. unfold content_refs in Hperm.
  rewrite !length_fmap in Hperm.
  pose proof (length_filter (λ r, Idea.content_generated r = true) (ideas db)).
  unfold get_stats. cbn. lia.
Qed.

Lemma one_article_reachable : reachable one_article.
Proof.
  eapply rtc_r; [apply one_pending_reachable|].
  eapply (step_add_content one_pending 1 "Title" "Body" 200); [|reflexivity].
  eexists. split_and!; [left|reflexivity..].
Defined.

Lemma get_stats_content_matches_witness :
  total_content_pieces (get_stats one_article)
  = ideas_with_content (get_stats one_article)
  ∧ pending_ideas (get_stats one_article)
    = total_ideas (get_stats one_article)
      - total_content_pieces (get_stats one_article)
  ∧ total_content_pieces (get_stats one_article)
    ≤ total_ideas (get_stats one_article).
Proof. apply (get_stats_content_matches one_article), one_article_reachable. Defined.

Lemma filter_id_nil i (rows : list Idea.row) :
  i ∉ Idea.id <$> rows → filter (λ r, Idea.id r = i) rows = [].
Proof.
  intros Hnot. induction rows as [|r rows IH]; [done|].
  rewrite fmap_cons, not_elem_of_cons in Hnot. destruct Hnot as [Hne Hnot].
  rewrite filter_cons_False by congruence. auto.
Qed.

Lemma filter_id_unique (rows : list Idea.row) r :
  NoDup (Idea.id <$> rows) → r ∈ rows →
  filter (λ r', Idea.id r' = Idea.id r) rows = [r].
Proof.
  induction rows as [|x rows IH]; [by intros _ ?%not_elem_of_nil|].
  rewrite fmap_cons, NoDup_cons. intros [Hx Hnd] [->|Hr]%elem_of_cons.
  - rewrite filter_cons_True by done. by rewrite filter_id_nil.
  - rewrite filter_cons_False; [by apply IH|].
    intros Heq. apply Hx. rewrite Heq. by apply list_elem_of_fmap_2.
Qed.

Lemma filter_id_is (rows : list Idea.row) r i :
  NoDup (Idea.id <$> rows) → r ∈ rows → Idea.id r = i →
  filter (λ r', Idea.id r' = i) rows = [r].
Proof. intros Hnd Hr <-. by apply filter_id_unique. Qed.



(** ** Nothing is deleted or rewritten *)

Lemma same_idea_refl r : same_idea r r.
Proof. by repeat split. Qed.

Lemma same_idea_trans r1 r2 r3 : same_idea r1 r2 → same_idea r2 r3 → same_idea r1 r3.
Proof.
  intros (? & ? & ? & ? & ?) (? & ? & ? & ? & ?).
  repeat split; try congruence. auto.
Qed.

Lemma extends_refl db : extends db db.
Proof. split; [|done]. intros k r Hr. exists r. eauto using same_idea_refl. Qed.

Lemma extends_trans db1 db2 db3 : extends db1 db2 → extends db2 db3 → extends db1 db3.
Proof.
  intros [Hi12 Hc12] [Hi23 Hc23]. split; [|by auto].
  intros k r Hr. destruct (Hi12 k r Hr) as (r2 & Hr2 & Hs12).
  destruct (Hi23 k r2 Hr2) as (r3 & Hr3 & Hs23).
  exists r3. eauto using same_idea_trans.
Qed.

Lemma length_filter_mark_generated idea_id (rows : list Idea.row) :
  (length (filter (λ r, Idea.content_generated r = true) rows)
   ≤ length (filter (λ r, Idea.content_generated r = true)
               (mark_generated idea_id <$> rows)))%nat.
Proof.
  induction rows as [|r rows IH]; [done|].
  rewrite fmap_cons, !filter_cons.
  destruct (decide (Idea.content_generated r = true)) as [Hr|Hr].
  - rewrite decide_True; [simpl; lia|].
    unfold mark_generated. by case_bool_decide.
  - case_decide; simpl; lia.
Qed.

Lemma extends_step db db' : db_step db db' → extends db db' ∧ stats_grow db db'.
Proof.
  intros Hstep. destruct Hstep as
    [db topic description now r db' Hadd
    |db idea_id title body now content_id db' _ Hadd].
  - destruct (add_idea_cases db topic description now) as [[_ E]|[_ E]];
      rewrite E in Hadd; injection Hadd as <- <-.
    { split; [apply extends_refl|]. unfold stats_grow. lia. }
    split; [split; cbn [ideas content]; [|done]|].
    + intros k row Hrow. exists row.
      split; [by apply lookup_app_l_Some|apply same_idea_refl].
    + unfold stats_grow, get_stats. cbn [total_ideas ideas_with_content
        total_content_pieces ideas content].
      rewrite filter_flagged_snoc, length_app. cbn. lia.
  - rewrite add_content_eq in Hadd. injection Hadd as <- <-.
    split; [split; cbn [ideas content]|].
    + intros k row Hrow. exists (mark_generated idea_id row).
      split; [by rewrite list_lookup_fmap, Hrow|].
      unfold same_idea, mark_generated. case_bool_decide; by repeat split.
    + intros k c Hc. by apply lookup_app_l_Some.
    + unfold stats_grow, get_stats. cbn [total_ideas ideas_with_content
        total_content_pieces ideas content].
      rewrite length_fmap, length_app.
      pose proof (length_filter_mark_generated idea_id (ideas db)). cbn. lia.
Qed.

Lemma extends_steps db db' :
  rtc db_step db db' → extends db db' ∧ stats_grow db db'.
Proof.
  intros Hsteps. induction Hsteps as [db|db db1 db2 Hstep _ [IHe IHs]].
  - split; [apply extends_refl|]. unfold stats_grow. lia.
  - destruct (extends_step _ _ Hstep) as [He Hs].
    split; [by eapply extends_trans|]. unfold stats_grow in *. lia.
Qed.

Section MoreProperties.

Context {World : Type}.
Variable openai : request → World → reply * World.
Variable current_timestamp : World → Z * World.

Implicit Types (e : @env World) (s : @service World) (l : idea_locals).

(** X8: a cycle deletes and rewrites nothing: on a store the pipelines
    reach, after [run_cycle] every idea row is at its place with the same
    id, topic, description and time, a flag that was set is still set,
    every content row is unchanged, and the counts of ideas, of ideas with
    content and of content pieces have not gone down. *)
Theorem run_cycle_append_only (s : service) :
  reachable (db s) →
  extends (db s) (db (run_cycle openai current_timestamp s))
  ∧ stats_grow (db s) (db (run_cycle openai current_timestamp s)).
Proof.
  intros Hreach. apply extends_steps. unfold run_cycle.
  etrans; [apply generate_and_store_ideas_steps|].
  apply generate_and_store_content_steps.
  eapply well_formed_steps; [by apply reachable_well_formed|].
  apply generate_and_store_ideas_steps.
Qed.

(** ** The generator, answer by answer *)


(** X10: with topics to compare against, [is_similar_topic] sends exactly
    one request, leaves the log alone, and its verdict is truthy exactly
    when the answer is an object whose [is_similar] is truthy: a missing
    key, a falsy value and every malformed answer mean not similar. *)
Theorem is_similar_topic_verdict (new_topic : string) (existing : list string)
    (e : env) :
  existing ≠ [] →
  calls (is_similar_topic openai new_topic existing e).2
  = calls e ++ [SimilarityRequest new_topic existing]
  ∧ log (is_similar_topic openai new_topic existing e).2 = log e
  ∧ (Py.truthy (is_similar_topic openai new_topic existing e).1 = true
     ↔ says_similar (openai (SimilarityRequest new_topic existing) (world e)).1).
Proof.
  intros Hne. rewrite is_similar_topic_calls by done. cbn [fst snd calls log].
  split_and!; [done..|].
  destruct (openai _ _).1 as [|[[]|]]; cbn; done.
Qed.


End MoreProperties.

Lemma is_similar_topic_verdict_witness :
  calls (is_similar_topic backend_all_similar "B" ["A"] quiet).2
  = calls quiet ++ [SimilarityRequest "B" ["A"]]
  ∧ log (is_similar_topic backend_all_similar "B" ["A"] quiet).2 = log quiet
  ∧ (Py.truthy (is_similar_topic backend_all_similar "B" ["A"] quiet).1 = true
     ↔ says_similar (backend_all_similar (SimilarityRequest "B" ["A"]) tt).1).
Proof. by apply (is_similar_topic_verdict backend_all_similar "B" ["A"] quiet). Defined.

Lemma run_cycle_append_only_witness :
  extends one_pending
    (db (run_cycle backend_article stopped_clock (service_on one_pending)))
  ∧ stats_grow one_pending
      (db (run_cycle backend_article stopped_clock (service_on one_pending))).
Proof.
  apply (run_cycle_append_only backend_article stopped_clock
           (service_on one_pending)).
  apply one_pending_reachable.
Defined.

(** In that cycle the pending idea gets its article. *)
Example run_cycle_stores_article :
  get_stats (db (run_cycle backend_article stopped_clock (service_on one_pending)))
  = {| total_ideas := 1; ideas_with_content := 1; pending_ideas := 0;
       total_content_pieces := 1 |}.
Proof. by vm_compute. Qed.

(** ** The idea pipeline, case by case *)

Section PipelineProperties.

Context {World : Type}.
Variable openai : request → World → reply * World.
Variable current_timestamp : World → Z * World.

Implicit Types (e : @env World) (s : @service World) (l : idea_locals).

Lemma generate_ideas_env count category e :
  calls (generate_ideas openai count category e).2
  = calls e ++ [IdeasRequest count category]
  ∧ log (generate_ideas openai count category e).2 = log e.
Proof.
  unfold generate_ideas, chat_completions_create.
  destruct (openai _ _) as [response w].
  split; by repeat case_match.
Qed.

(** X12: when [generate_ideas] comes back empty (the call raised, the
    answer was no JSON or held no ideas), [generate_and_store_ideas] leaves
    the store as it is, has sent that one request and no other, and logs
    that no ideas were generated. *)
Theorem generate_and_store_ideas_nothing (s : service) :
  Py.truthy
    (generate_ideas openai (ideas_per_run s) (category s) (outside s)).1 = false →
  db (generate_and_store_ideas openai current_timestamp s) = db s
  ∧ calls (outside (generate_and_store_ideas openai current_timestamp s))
    = calls (outside s) ++ [IdeasRequest (ideas_per_run s) (category s)]
  ∧ log (outside (generate_and_store_ideas openai current_timestamp s))
    = log (outside s) ++ [NoIdeasGenerated].
Proof.
  intros Hfalsy.
  pose proof (generate_ideas_env (ideas_per_run s) (category s) (outside s))
    as [Hcalls Hlog].
  unfold generate_and_store_ideas, try_except, ideas_body, bind, gets,
    generator, info.
  destruct (generate_ideas _ _ _ _) as [raw e]. cbn [fst snd] in *.
  rewrite Hfalsy. cbn [negb db outside with_outside logger calls log].
  by rewrite Hcalls, Hlog.
Qed.

(** X13: candidates whose topic the store already holds are counted as
    duplicates one by one without a similarity request: the store, the
    requests, [existing_topics] and [new_count] stay as they are. *)
Theorem known_topics_are_duplicates (items : list Py.json) (l : idea_locals)
    (s : service) :
  Forall (λ idea, ∃ topic description,
            candidate idea topic description ∧ topic ≠ ""
            ∧ idea_exists (db s) topic = true) items →
  ∃ l' s',
    for_each (process_idea openai current_timestamp) items l s = (inr l', s')
    ∧ db s' = db s
    ∧ calls (outside s') = calls (outside s)
    ∧ existing_topics l' = existing_topics l
    ∧ new_count l' = new_count l
    ∧ duplicate_count l' = duplicate_count l + Z.of_nat (length items).
Proof.
  intros Hall. revert l s Hall.
  induction items as [|idea items IH]; intros l s Hall.
  { exists l, s. cbn. split_and!; [done..|lia]. }
  apply Forall_cons in Hall as [(topic & description & Hc & Hne & Hex) Hall].
  cbn [for_each]. unfold bind.
  rewrite (process_idea_candidate _ _ _ _ _ _ _ Hc).
  rewrite bool_decide_false, Hex by done.
  destruct (IH (count_duplicate l)
              (with_outside (logger (DuplicateExact topic) (outside s)) s) Hall)
    as (l' & s' & -> & Hdb & Hcalls & Ht & Hn & Hd).
  exists l', s'. cbn in *. split_and!; [done..|]. lia.
Qed.

(** X14: candidates whose topic is empty once stripped are skipped: no
    counter moves, no request is sent, the store stays as it is. *)
Theorem empty_topics_are_skipped (items : list Py.json) (l : idea_locals)
    (s : service) :
  Forall (λ idea, ∃ description, candidate idea "" description) items →
  ∃ s',
    for_each (process_idea openai current_timestamp) items l s = (inr l, s')
    ∧ db s' = db s
    ∧ calls (outside s') = calls (outside s)
    ∧ log (outside s')
      = log (outside s) ++ replicate (length items) SkippingEmptyTopic.
Proof.
  intros Hall. revert s Hall.
  induction items as [|idea items IH]; intros s Hall.
  { exists s. cbn. by rewrite app_nil_r. }
  apply Forall_cons in Hall as [(description & Hc) Hall].
  cbn [for_each]. unfold bind.
  rewrite (process_idea_candidate _ _ _ _ _ _ _ Hc).
  rewrite bool_decide_true by done.
  destruct (IH (with_outside (logger SkippingEmptyTopic (outside s)) s) Hall)
    as (s' & -> & Hdb & Hcalls & Hlog).
  exists s'. cbn in *. split_and!; [done..|].
  by rewrite Hlog, <-app_assoc.
Qed.

(** X15: an item the loop cannot read (no [dict], or a [topic] or
    [description] that is no string) raises at its turn and ends the batch:
    the candidates after it are never processed, the state is the one the
    candidates before it left. *)
Theorem unreadable_item_ends_batch (pre : list Py.json) (bad : Py.json)
    (l0 l1 : idea_locals) (s0 s1 : service) :
  for_each (process_idea openai current_timestamp) pre l0 s0 = (inr l1, s1) →
  (∀ topic description, ¬ candidate bad topic description) →
  ∃ ex, ∀ post,
    for_each (process_idea openai current_timestamp) (pre ++ bad :: post) l0 s0
    = (inl ex, s1).
Proof.
  intros Hpre Hbad.
  destruct (process_idea_parse openai current_timestamp bad l1 s1)
    as [[ex Hex]|(topic & description & Hc)]; [|by destruct (Hbad _ _ Hc)].
  exists ex. intros post. rewrite for_each_app. unfold bind at 1.
  rewrite Hpre. cbn [for_each]. unfold bind. by rewrite Hex.
Qed.

End PipelineProperties.

Lemma generate_and_store_ideas_nothing_witness :
  db (generate_and_store_ideas backend_down stopped_clock (service_on one_pending))
  = one_pending
  ∧ calls (outside (generate_and_store_ideas backend_down stopped_clock
                      (service_on one_pending)))
    = calls quiet ++ [IdeasRequest 5 "programming"]
  ∧ log (outside (generate_and_store_ideas backend_down stopped_clock
                    (service_on one_pending)))
    = log quiet ++ [NoIdeasGenerated].
Proof.
  apply (generate_and_store_ideas_nothing backend_down stopped_clock
           (service_on one_pending)).
  reflexivity.
Defined.

Lemma known_topics_are_duplicates_witness :
  ∃ l' s',
    for_each (process_idea backend_down stopped_clock)
      [idea_json " A " "again"; idea_json "A" ""] no_locals
      (service_on one_pending)
    = (inr l', s')
    ∧ db s' = one_pending
    ∧ calls (outside s') = calls quiet
    ∧ existing_topics l' = existing_topics no_locals
    ∧ new_count l' = new_count no_locals
    ∧ duplicate_count l' = duplicate_count no_locals + Z.of_nat 2.
Proof.
  apply (known_topics_are_duplicates backend_down stopped_clock
           [idea_json " A " "again"; idea_json "A" ""] no_locals
           (service_on one_pending)).
  repeat constructor.
  - exists "A", "again".
    split; [apply (candidate_idea_json " A " "again")|]. by split.
  - exists "A", "".
    split; [apply (candidate_idea_json "A" "")|]. by split.
Defined.

Lemma empty_topics_are_skipped_witness :
  ∃ s',
    for_each (process_idea backend_down stopped_clock)
      [idea_json "   " "blank"] no_locals (service_on one_pending)
    = (inr no_locals, s')
    ∧ db s' = one_pending
    ∧ calls (outside s') = calls quiet
    ∧ log (outside s') = log quiet ++ replicate 1 SkippingEmptyTopic.
Proof.
  apply (empty_topics_are_skipped backend_down stopped_clock
           [idea_json "   " "blank"] no_locals (service_on one_pending)).
  repeat constructor. exists "blank". apply (candidate_idea_json "   " "blank").
Defined.

Lemma unreadable_item_ends_batch_witness :
  ∃ ex, ∀ post,
    for_each (process_idea backend_all_similar stopped_clock)
      ([idea_json "A" "a"] ++ Py.JStr "B" :: post) no_locals
      (service_on empty_database)
    = (inl ex, after_A.2).
Proof.
  apply (unreadable_item_ends_batch backend_all_similar stopped_clock
           [idea_json "A" "a"] (Py.JStr "B") no_locals after_A.1
           (service_on empty_database) after_A.2).
  - reflexivity.
  - intros topic description (d & t & ds & Hd & _). discriminate Hd.
Defined.

(** ** What a batch of ideas does to the store *)

Lemma candidate_stripped idea topic description :
  candidate idea topic description → Py.strip topic = topic.
Proof. intros (d & t & ds & _ & _ & _ & -> & _). apply strip_idemp. Qed.

Lemma iter_len v n items :
  Py.len v = inr n → Py.iter v = inr items → Z.of_nat (length items) = n.
Proof.
  destruct v as [| | |str|xs|d]; try done; cbn; intros [= <-] [= <-].
  - rewrite length_fmap. f_equal.
    induction str as [|c str IH]; [done|]. cbn. by rewrite IH.
  - done.
  - by rewrite !length_fmap, length_map_to_list.
Qed.

Section IdeaBatch.

Context {World : Type}.
Variable openai : request → World → reply * World.
Variable current_timestamp : World → Z * World.

Implicit Types (e : @env World) (s : @service World) (l : idea_locals).

(** One turn of the loop: nothing stored and at most a duplicate counted, or
    one fresh row stored and counted as new. *)
Lemma process_idea_effect idea l s r s' :
  0 ≤ ideas_seq (db s) →
  process_idea openai current_timestamp idea l s = (r, s') →
  content (db s') = content (db s)
  ∧ 0 ≤ ideas_seq (db s')
  ∧ ((db s' = db s
      ∧ ∀ l', r = inr l' →
          new_count l' = new_count l
          ∧ duplicate_count l ≤ duplicate_count l' ≤ duplicate_count l + 1)
     ∨ (∃ row,
          ideas (db s') = ideas (db s) ++ [row] ∧ fresh_row row
          ∧ ∃ l', r = inr l'
                  ∧ new_count l' = new_count l + 1
                  ∧ duplicate_count l' = duplicate_count l)).
Proof.
  intros Hseq.
  destruct (process_idea_parse openai current_timestamp idea l s)
    as [[ex ->]|(topic & description & Hc)].
  { intros [= <- <-]. split_and!; [done..|]. left. by split. }
  rewrite (process_idea_candidate _ _ _ _ _ _ _ Hc).
  case_bool_decide as Hne.
  { intros [= <- <-]. split_and!; [done..|]. left. split; [done|].
    intros l' [= <-]. lia. }
  destruct (idea_exists _ _).
  { intros [= <- <-]. split_and!; [done..|]. left. split; [done|].
    intros l' [= <-]. cbn. lia. }
  destruct (is_similar_topic _ _ _ _) as [v e].
  destruct (Py.truthy v).
  { intros [= <- <-]. split_and!; [done..|]. left. split; [done|].
    intros l' [= <-]. cbn. lia. }
  rewrite store_idea_eq, read_clock_eq. cbn [db with_outside outside].
  destruct (add_idea_cases (db s) topic description
              (current_timestamp (world e)).1) as [[_ E]|[_ E]]; rewrite E.
  { intros [= <- <-]. split_and!; [done..|]. left. split; [done|].
    intros l' [= <-]. cbn. lia. }
  pose proof (next_rowid_above_seq (ideas_seq (db s)) (Idea.id <$> ideas (db s))).
  rewrite bool_decide_true by lia.
  intros [= <- <-]. cbn [db with_outside with_db ideas ideas_seq content].
  split_and!; [done|lia|]. right. eexists. split; [reflexivity|].
  split; [|by eexists].
  unfold fresh_row. cbn. rewrite (candidate_stripped _ _ _ Hc).
  split_and!; [done|by apply (candidate_stripped _ _ _ Hc)|done].
Qed.

Lemma for_each_process_idea_effect items l s r s' :
  0 ≤ ideas_seq (db s) →
  for_each (process_idea openai current_timestamp) items l s = (r, s') →
  ∃ new,
    ideas (db s') = ideas (db s) ++ new
    ∧ content (db s') = content (db s)
    ∧ Forall fresh_row new
    ∧ (length new ≤ length items)%nat
    ∧ ∀ l', r = inr l' →
        new_count l' = new_count l + Z.of_nat (length new)
        ∧ duplicate_count l ≤ duplicate_count l'
        ∧ (new_count l' - new_count l) + (duplicate_count l' - duplicate_count l)
          ≤ Z.of_nat (length items).
Proof.
  revert l s. induction items as [|idea items IH]; intros l s Hseq.
  { intros [= <- <-]. exists []. rewrite app_nil_r.
    split_and!; [done..|]. intros l' [= <-]. cbn. lia. }
  cbn [for_each]. unfold bind.
  destruct (process_idea _ _ _ _ _) as [[ex|l1] s1] eqn:Hstep;
    apply process_idea_effect in Hstep
      as (Hcontent & Hseq1 & [[Hdb Hcount]|(row & Hrow & Hfresh & l1' & Hl1 & Hn & Hd)]);
    try done.
  - intros [= <- <-]. exists []. rewrite app_nil_r, Hdb.
    split_and!; [done..|cbn; lia|done].
  - intros (new & Hideas & Hc & Hall & Hlen & Hl)%IH; [|done].
    exists new. rewrite Hideas, Hc, Hdb. split_and!; [done..|cbn; lia|].
    intros l' ->. destruct (Hl l' eq_refl) as (? & ? & ?).
    destruct (Hcount l1 eq_refl) as (? & ?). cbn. lia.
  - injection Hl1 as <-.
    intros (new & Hideas & Hc & Hall & Hlen & Hl)%IH; [|done].
    exists (row :: new). rewrite Hideas, Hc, Hrow, <-app_assoc.
    split_and!; [done|done|by constructor|cbn; lia|].
    intros l' ->. destruct (Hl l' eq_refl) as (? & ? & ?). cbn. lia.
Qed.

(** X16: the counters tell what happened: after a batch that ran to its end
    on a store whose id counter is not negative, [new_count] has grown by
    the number of rows added to [ideas], [duplicate_count] has not shrunk,
    the two together have grown by no more than the number of candidates,
    and [content] is untouched. *)
Theorem new_count_is_rows_added (items : list Py.json) (l l' : idea_locals)
    (s s' : service) :
  0 ≤ ideas_seq (db s) →
  for_each (process_idea openai current_timestamp) items l s = (inr l', s') →
  Z.of_nat (length (ideas (db s')))
  = Z.of_nat (length (ideas (db s))) + (new_count l' - new_count l)
  ∧ 0 ≤ new_count l' - new_count l
  ∧ 0 ≤ duplicate_count l' - duplicate_count l
  ∧ (new_count l' - new_count l) + (duplicate_count l' - duplicate_count l)
    ≤ Z.of_nat (length items)
  ∧ content (db s') = content (db s).
Proof.
  intros Hseq Hloop.
  apply for_each_process_idea_effect in Hloop
    as (new & Hideas & Hc & _ & _ & Hl); [|done].
  destruct (Hl l' eq_refl) as (Hn & Hd & Hsum).
  rewrite Hideas, length_app. split_and!; [lia..|done].
Qed.

(** X17: [generate_and_store_ideas] only appends to [ideas]: the rows that
    were there are unchanged, [content] is unchanged, every row added holds
    a topic that is stripped and not empty and is not flagged, and no more
    rows are added than [ideas_per_run] asks for. *)
Theorem generate_and_store_ideas_appends (s : service) :
  0 ≤ ideas_seq (db s) →
  ∃ new,
    ideas (db (generate_and_store_ideas openai current_timestamp s))
    = ideas (db s) ++ new
    ∧ content (db (generate_and_store_ideas openai current_timestamp s))
      = content (db s)
    ∧ Forall fresh_row new
    ∧ (0 ≤ ideas_per_run s → Z.of_nat (length new) ≤ ideas_per_run s).
Proof.
  intros Hseq.
  assert (∃ new : list Idea.row,
            ideas (db s) = ideas (db s) ++ new ∧ content (db s) = content (db s)
            ∧ Forall fresh_row new
            ∧ (0 ≤ ideas_per_run s → Z.of_nat (length new) ≤ ideas_per_run s))
    as Hsame.
  { exists []. rewrite app_nil_r. split_and!; [done..|]. cbn. lia. }
  pose proof (generate_ideas_len openai (ideas_per_run s) (category s) (outside s))
    as Hlen.
  unfold generate_and_store_ideas, try_except, ideas_body, bind, gets,
    generator, info, of_result.
  destruct (generate_ideas _ _ _ _) as [raw e]. cbn [fst] in Hlen.
  destruct (Py.truthy raw); cbn [negb]; [|done].
  destruct (Py.iter raw) as [ex|candidates] eqn:Hiter; [done|].
  destruct (for_each _ _ _ _) as [[ex|l] s1] eqn:Hloop;
    apply for_each_process_idea_effect in Hloop
      as (new & Hideas & Hc & Hall & Hbound & _); try done;
    exists new; cbn [db with_outside] in *;
    (split_and!; [done..|]); intros Hcount;
    destruct (Hlen Hcount) as (n & Hn & Hle);
    pose proof (iter_len _ _ _ Hn Hiter); lia.
Qed.

Lemma is_similar_topic_never new_topic existing e :
  (∀ t ts w, ¬ says_similar (openai (SimilarityRequest t ts) w).1) →
  Py.truthy (is_similar_topic openai new_topic existing e).1 = false.
Proof.
  intros Hnever. destruct existing as [|t ts]; [done|].
  rewrite is_similar_topic_calls by done. cbn [fst].
  specialize (Hnever new_topic (t :: ts) (world e)).
  destruct (openai _ _).1 as [|[[]|]]; try done.
  cbn in Hnever. by apply not_true_is_false.
Qed.

(** X18: candidates with distinct topics, none empty, none in the store,
    none judged similar, are all stored, in order: [existing_topics] and
    the topics of the table grow by exactly these topics, [new_count] by
    their number, [duplicate_count] not at all, and [idea_exists] then
    holds for each. *)
Theorem fresh_batch_all_stored (items : list Py.json) (topics : list string)
    (l : idea_locals) (s : service) :
  Forall2 (λ idea topic, ∃ description, candidate idea topic description)
    items topics →
  NoDup topics →
  Forall (λ topic, topic ≠ "" ∧ idea_exists (db s) topic = false) topics →
  (∀ t ts w, ¬ says_similar (openai (SimilarityRequest t ts) w).1) →
  0 ≤ ideas_seq (db s) →
  ∃ l' s',
    for_each (process_idea openai current_timestamp) items l s = (inr l', s')
    ∧ existing_topics l' = existing_topics l ++ topics
    ∧ new_count l' = new_count l + Z.of_nat (length topics)
    ∧ duplicate_count l' = duplicate_count l
    ∧ Idea.topic <$> ideas (db s') = (Idea.topic <$> ideas (db s)) ++ topics
    ∧ Forall (λ topic, idea_exists (db s') topic = true) topics.
Proof.
  intros Hitems Hnd Hfresh Hnever.
  assert (Forall (λ t, Py.strip t = t) topics) as Hstripped.
  { clear -Hitems. induction Hitems as [|x t xs ts (d & Hcd) _ IH'];
      [constructor|].
    constructor; [by eapply candidate_stripped|done]. }
  revert l s Hnd Hfresh Hstripped.
  induction Hitems as [|idea topic items topics (description & Hc) _ IH];
    intros l s Hnd Hfresh Hstripped Hseq.
  { exists l, s. rewrite !app_nil_r. split_and!; try done. cbn. lia. }
  apply NoDup_cons in Hnd as [Hnotin Hnd].
  apply Forall_cons in Hfresh as [[Hne Hnew] Hfresh].
  apply Forall_cons in Hstripped as [_ Hstripped].
  pose proof (candidate_stripped _ _ _ Hc) as Hstrip.
  cbn [for_each]. unfold bind.
  rewrite (process_idea_candidate _ _ _ _ _ _ _ Hc).
  rewrite bool_decide_false, Hnew by done.
  pose proof (is_similar_topic_never topic (existing_topics l) (outside s) Hnever)
    as Hfalse.
  destruct (is_similar_topic _ _ _ _) as [v e]. cbn [fst] in Hfalse.
  rewrite Hfalse, store_idea_eq, read_clock_eq. cbn [db with_outside outside].
  assert (Py.strip topic ∉ Idea.topic <$> ideas (db s)) as Hnotstored.
  { intros Hin%idea_exists_spec. congruence. }
  destruct (add_idea_cases (db s) topic description
              (current_timestamp (world e)).1) as [[Hin _]|[_ E]]; [done|].
  rewrite E.
  pose proof (next_rowid_above_seq (ideas_seq (db s)) (Idea.id <$> ideas (db s))).
  rewrite bool_decide_true by lia.
  match goal with
  | |- context [for_each _ _ ?l1 ?s1] =>
      destruct (IH l1 s1) as (l' & s' & -> & Ht & Hn & Hd & Htopics & Hall)
  end.
  - done.
  - apply Forall_forall. intros t Ht.
    apply (proj1 (Forall_forall _ _) Hfresh) in Ht as Hold. destruct Hold as [Htne Htnew].
    split; [done|]. apply not_true_is_false. rewrite idea_exists_spec.
    cbn [db with_outside with_db ideas]. rewrite fmap_app, elem_of_app.
    intros [Hin|Hin%list_elem_of_singleton].
    + apply idea_exists_spec in Hin. congruence.
    + cbn in Hin. rewrite Hstrip in Hin.
      rewrite (proj1 (Forall_forall _ _) Hstripped t Ht) in Hin. by subst t.
  - done.
  - cbn [db with_outside with_db ideas_seq]. lia.
  - exists l', s'. cbn [db with_outside with_db ideas count_new existing_topics
      new_count duplicate_count] in *.
    split_and!; [done| | |done| |].
    + by rewrite Ht, <-app_assoc.
    + rewrite Hn. cbn [length]. lia.
    + rewrite Htopics, fmap_app, <-app_assoc. cbn. by rewrite Hstrip.
    + constructor; [|done]. apply idea_exists_spec. rewrite Htopics.
      rewrite fmap_app, !elem_of_app. left. right. cbn. rewrite Hstrip. left.
Qed.

End IdeaBatch.

(** ** The content pipeline, case by case *)

Lemma mark_generated_other i (rows : list Idea.row) :
  i ∉ Idea.id <$> rows → mark_generated i <$> rows = rows.
Proof.
  intros Hnot. induction rows as [|r rows IH]; [done|].
  rewrite fmap_cons, not_elem_of_cons in Hnot. destruct Hnot as [Hne Hnot].
  rewrite fmap_cons, IH by done. unfold mark_generated.
  by rewrite bool_decide_false by congruence.
Qed.

Lemma length_flagged_mark (rows : list Idea.row) r :
  NoDup (Idea.id <$> rows) → r ∈ rows → Idea.content_generated r = false →
  length (filter (λ r', Idea.content_generated r' = true)
            (mark_generated (Idea.id r) <$> rows))
  = S (length (filter (λ r', Idea.content_generated r' = true) rows)).
Proof.
  induction rows as [|x rows IH]; [by intros _ ?%not_elem_of_nil|].
  rewrite fmap_cons, NoDup_cons. intros [Hx Hnd] [->|Hr]%elem_of_cons Hflag.
  - rewrite fmap_cons, mark_generated_other by done.
    rewrite filter_cons_True, filter_cons_False by
      (unfold mark_generated; rewrite ?bool_decide_true; cbn; congruence).
    done.
  - assert (Idea.id x ≠ Idea.id r) as Hne.
    { intros Heq. apply Hx. rewrite Heq. by apply list_elem_of_fmap_2. }
    rewrite fmap_cons. unfold mark_generated at 1.
    rewrite bool_decide_false by done. rewrite !filter_cons.
    case_decide; cbn; by rewrite IH.
Qed.

Lemma get_content_by_idea_added db r title body now content_id db' :
  well_formed db → r ∈ ideas db → Idea.content_generated r = false →
  add_content db (Idea.id r) title body now = inr (content_id, db') →
  get_content_by_idea db' (Idea.id r)
  = Some {| Article.id := content_id; Article.title := title;
            Article.content := body; Article.created_at := now;
            Article.topic := Idea.topic r |}.
Proof.
  intros Hwf Hr Hflag Hadd.
  assert (Idea.id r ∉ content_refs db) as Hnone.
  { intros Hin%(wf_consistent _ Hwf r Hr). congruence. }
  rewrite add_content_eq in Hadd. injection Hadd as <- <-.
  unfold get_content_by_idea, select_content_by_idea. cbn [content ideas].
  rewrite filter_app, (filter_refs_nil _ (content db)) by done.
  rewrite filter_cons_True, filter_nil by done.
  rewrite app_nil_l, bind_singleton. cbn [Content.idea_id].
  rewrite (filter_id_is (mark_generated (Idea.id r) <$> ideas db)
             (mark_generated (Idea.id r) r) (Idea.id r)).
  - cbn. by rewrite mark_generated_topic.
  - rewrite mark_generated_ids. apply (wf_ids _ Hwf).
  - by apply list_elem_of_fmap_2.
  - apply mark_generated_id.
Qed.

Section ContentBatch.

Context {World : Type}.
Variable openai : request → World → reply * World.
Variable current_timestamp : World → Z * World.

Implicit Types (e : @env World) (s : @service World).

Lemma for_each_expand_idea_effect items n s r s' :
  for_each (expand_idea openai current_timestamp) items n s = (r, s') →
  ∃ k added,
    (k ≤ length items)%nat
    ∧ calls (outside s')
      = calls (outside s) ++ (article_request <$> take k items)
    ∧ Idea.id <$> ideas (db s') = Idea.id <$> ideas (db s)
    ∧ Idea.topic <$> ideas (db s') = Idea.topic <$> ideas (db s)
    ∧ content (db s') = content (db s) ++ added
    ∧ (length added ≤ k)%nat
    ∧ ∀ n', r = inr n' →
        k = length items ∧ n' = n + Z.of_nat (length added).
Proof.
  revert n s. induction items as [|d items IH]; intros n s.
  { intros [= <- <-]. exists 0%nat, []. rewrite !app_nil_r.
    split_and!; [done..|]. intros n' [= <-]. cbn. split; [done|lia]. }
  cbn [for_each]. unfold bind.
  destruct (expand_idea _ _ _ _ _) as [[ex|n1] s1] eqn:Hstep;
    apply expand_idea_effect in Hstep
      as [Hcalls [[Hdb Hn]|[Hr (t & b & now & c & Hadd)]]]; try done.
  - intros [= <- <-]. exists 1%nat, []. rewrite app_nil_r, Hdb, Hcalls.
    split_and!; try done; cbn; lia.
  - specialize (Hn n1 eq_refl). subst n1.
    intros (k & added & Hk & Hc & Hids & Htopics & Hcontent & Hlen & Hres)%IH.
    exists (S k), added. rewrite Hc, Hcalls, Hids, Htopics, Hcontent, Hdb.
    split_and!; try done; try (cbn; lia).
    + by rewrite <-app_assoc.
    + intros n' ->. by destruct (Hres n' eq_refl) as [-> ->].
  - injection Hr as ->.
    intros (k & added & Hk & Hc & Hids & Htopics & Hcontent & Hlen & Hres)%IH.
    rewrite add_content_eq in Hadd. injection Hadd as _ Hdb.
    rewrite <-Hdb in Hids, Htopics, Hcontent. cbn [ideas content] in *.
    rewrite mark_generated_ids in Hids. rewrite mark_generated_topics in Htopics.
    eexists (S k), (_ :: added). rewrite Hc, Hcalls, Hids, Htopics, Hcontent.
    split_and!; try done; try (cbn; lia).
    + by rewrite <-app_assoc.
    + by rewrite <-app_assoc.
    + intros n' ->. destruct (Hres n' eq_refl) as [-> ->]. cbn [length].
      split; [done|lia].
Qed.

Lemma get_pending_ideas_length db K rows :
  0 < K → get_pending_ideas db (Some K) = inr rows → Z.of_nat (length rows) ≤ K.
Proof.
  intros HK Hrows. destruct (decide (K < 2 ^ 63)) as [Hlt|Hge].
  - rewrite get_pending_ideas_limit in Hrows by lia. injection Hrows as <-.
    rewrite length_take. lia.
  - destruct (get_pending_ideas_raises db K) as [E|E]; [lia|congruence..].
Qed.

(** A loop that raises does so at the turn of one item, the items before
    it having gone through. *)
Lemma for_each_raises {A L} (body : A → L → M L) (items : list A) (locals : L)
    s ex s' :
  for_each body items locals s = (inl ex, s') →
  ∃ before x after l1 s1,
    items = before ++ x :: after
    ∧ for_each body before locals s = (inr l1, s1)
    ∧ body x l1 s1 = (inl ex, s').
Proof.
  revert locals s. induction items as [|x items IH]; intros locals s; [done|].
  cbn [for_each]. unfold bind.
  destruct (body x locals s) as [[ex'|l1] s1] eqn:Hx.
  - intros [= -> ->]. by exists [], x, items, locals, s.
  - intros (before & y & after & l2 & s2 & -> & Hbefore & Hy)%IH.
    exists (x :: before), y, after, l2, s2. split_and!; [done| |done].
    cbn [for_each]. unfold bind. by rewrite Hx.
Qed.

(** X19: when [get_pending_ideas] returns, [generate_and_store_content]
    asks for the articles of the ideas it lists, oldest first, one request
    per idea: for all of them when no turn of the loop raises, up to and
    including the idea at whose turn the loop raises otherwise. It logs
    the completion with the number of content rows it added, or the
    error; with a positive [content_per_run] it sends no more requests
    than that; it adds no idea and changes no id or topic, and every
    content row it adds comes after the ones there were, no more rows than
    requests. When [get_pending_ideas] raises, it sends nothing, writes
    nothing and logs the error. *)
Theorem generate_and_store_content_requests (s : service) :
  (∀ pending,
     get_pending_ideas (db s) (Some (content_per_run s)) = inr pending →
     ∃ k added,
       calls (outside (generate_and_store_content openai current_timestamp s))
       = calls (outside s) ++ (article_request <$> take k pending)
       ∧ (k ≤ length pending)%nat
       ∧ (0 < content_per_run s → Z.of_nat k ≤ content_per_run s)
       ∧ Idea.id
           <$> ideas (db (generate_and_store_content openai current_timestamp s))
         = Idea.id <$> ideas (db s)
       ∧ Idea.topic
           <$> ideas (db (generate_and_store_content openai current_timestamp s))
         = Idea.topic <$> ideas (db s)
       ∧ content (db (generate_and_store_content openai current_timestamp s))
         = content (db s) ++ added
       ∧ (length added ≤ k)%nat
       ∧ ((k = length pending
           ∧ last (log (outside (generate_and_store_content openai
                                   current_timestamp s)))
             = Some match pending with
                    | [] => NoPendingIdeas
                    | _ :: _ =>
                        ContentGenerationComplete (Z.of_nat (length added))
                    end)
          ∨ (∃ ex before d after n1 s1 s2,
               pending = before ++ d :: after
               ∧ k = S (length before)
               ∧ for_each (expand_idea openai current_timestamp) before 0
                   (with_outside
                      (logger (FoundPending (Z.of_nat (length pending)))
                         (outside s)) s)
                 = (inr n1, s1)
               ∧ expand_idea openai current_timestamp d n1 s1 = (inl ex, s2)
               ∧ last (log (outside (generate_and_store_content openai
                                       current_timestamp s)))
                 = Some (ErrorInContentGeneration ex))))
  ∧ (∀ ex,
       get_pending_ideas (db s) (Some (content_per_run s)) = inl ex →
       calls (outside (generate_and_store_content openai current_timestamp s))
       = calls (outside s)
       ∧ db (generate_and_store_content openai current_timestamp s) = db s
       ∧ log (outside (generate_and_store_content openai current_timestamp s))
         = log (outside s) ++ [ErrorInContentGeneration ex]).
Proof.
  split.
  - intros pending Hpending.
    assert (0 < content_per_run s →
            Z.of_nat (length pending) ≤ content_per_run s) as Hbound
      by (intros HK; by eapply get_pending_ideas_length).
    destruct (decide (pending = [])) as [->|Hne].
    { unfold generate_and_store_content, try_except, content_body, bind, gets,
        of_result, info. rewrite Hpending.
      exists 0%nat, []. cbn [db outside with_outside logger calls log take fmap].
      rewrite !app_nil_r, last_snoc. cbn [list_fmap length].
      split_and!; try done; try lia. by left. }
    rewrite (generate_and_store_content_loop _ _ _ _ Hpending Hne).
    destruct (for_each _ _ _ _) as [[ex|n] s1] eqn:Hloop.
    + apply for_each_raises in Hloop
        as (before & d & after & n1 & s0 & -> & Hbefore & Hd).
      pose proof Hbefore as Heffect. apply for_each_expand_idea_effect in Heffect
        as (k & added & _ & Hc & Hids & Htopics & Hcontent & Hlen & Hres).
      destruct (Hres n1 eq_refl) as [-> _].
      pose proof Hd as Hturn. apply expand_idea_effect in Hturn
        as [Hcalls [[Hdb _]|[[=] _]]].
      exists (S (length before)), added.
      cbn [db outside with_outside logger calls log] in *.
      rewrite last_snoc, Hcalls, Hc, Hdb, Hids, Htopics, Hcontent.
      rewrite firstn_all, <-app_assoc.
      assert (length (before ++ d :: after) = S (length before + length after))
        as Hlength by (rewrite length_app; cbn [length]; lia).
      assert (take (S (length before)) (before ++ d :: after) = before ++ [d])
        as ->.
      { rewrite take_app_ge by lia.
        replace (S (length before) - length before)%nat with 1%nat by lia.
        done. }
      rewrite fmap_app. split_and!; try done; try lia.
      right. by exists ex, before, d, after, n1, s0, s1.
    + apply for_each_expand_idea_effect in Hloop
        as (k & added & Hk & Hc & Hids & Htopics & Hcontent & Hlen & Hres).
      destruct (Hres n eq_refl) as [-> ->].
      exists (length pending), added.
      cbn [db outside with_outside logger calls log] in *.
      rewrite last_snoc. split_and!; try done; try lia.
      left. split; [done|]. by destruct pending.
  - intros ex Hraises.
    unfold generate_and_store_content, try_except, content_body, bind, gets,
      of_result, info. by rewrite Hraises.
Qed.

Lemma generate_content_dict topic description word_count e answer :
  (openai (ArticleRequest topic description word_count) (world e)).1
  = ApiText (Some (Py.JDict answer)) →
  is_Some (answer !! "title") → is_Some (answer !! "content") →
  (generate_content openai topic description word_count e).1
  = Some (Py.JDict answer).
Proof.
  intros Hanswer [x Hx] [y Hy]. unfold generate_content, chat_completions_create.
  destruct (openai _ _) as [response w]. cbn [fst] in Hanswer. subst response.
  unfold Py.contains. rewrite !bool_decide_true by eauto.
  unfold Py.getitem. by rewrite Hx.
Qed.

Lemma truthy_dict (answer : gmap string Py.json) key :
  is_Some (answer !! key) → Py.truthy (Py.JDict answer) = true.
Proof.
  intros [x Hx]. cbn. apply bool_decide_true. intros Hsize.
  by rewrite (proj1 (map_size_empty_iff answer) Hsize) in Hx.
Qed.

(** X20: when the answer for a pending idea of a well-formed store is an
    object whose [title] and [content] are strings, the loop body counts
    one more piece, [get_content_by_idea] then returns that title and body
    with the topic of the idea, no answer of [get_pending_ideas] holds the
    idea any more, and the statistics show one pending idea less, one idea
    with content more and one content piece more. *)
Theorem expand_idea_stores_article (d : Pending.dict) (n : Z) (s : service)
    (answer : gmap string Py.json) (title body : string) :
  well_formed (db s) →
  pending_in (db s) d →
  (openai (article_request d) (world (outside s))).1
  = ApiText (Some (Py.JDict answer)) →
  answer !! "title" = Some (Py.JStr title) →
  answer !! "content" = Some (Py.JStr body) →
  ∃ s' content_id now,
    expand_idea openai current_timestamp d n s = (inr (n + 1), s')
    ∧ get_content_by_idea (db s') (Pending.id d)
      = Some {| Article.id := content_id; Article.title := title;
                Article.content := body; Article.created_at := now;
                Article.topic := Pending.topic d |}
    ∧ (∀ limit rows d',
         get_pending_ideas (db s') limit = inr rows → d' ∈ rows →
         Pending.id d' ≠ Pending.id d)
    ∧ total_ideas (get_stats (db s')) = total_ideas (get_stats (db s))
    ∧ pending_ideas (get_stats (db s')) = pending_ideas (get_stats (db s)) - 1
    ∧ ideas_with_content (get_stats (db s'))
      = ideas_with_content (get_stats (db s)) + 1
    ∧ total_content_pieces (get_stats (db s'))
      = total_content_pieces (get_stats (db s)) + 1.
Proof.
  intros Hwf (r & Hr & Hflag & ->) Hanswer Htitle Hbody.
  unfold expand_idea, bind, info, generator, of_result.
  cbn [fst snd outside with_outside pending_dict Pending.id Pending.topic
       Pending.description].
  pose proof (generate_content_dict (Idea.topic r) (Idea.description r) 800
                (logger (GeneratingContentFor (Idea.topic r)) (outside s))
                answer Hanswer) as Hgen.
  destruct (generate_content _ _ _ _ _) as [result e].
  cbn [fst] in Hgen. rewrite Hgen by eauto.
  rewrite (truthy_dict answer "title") by eauto.
  unfold Py.getitem. rewrite Htitle, Hbody.
  unfold db_add_content. cbn [sqlite_bind]. rewrite read_clock_eq.
  cbn [db with_outside outside world]. rewrite add_content_eq.
  eexists _, _, _. split; [reflexivity|].
  cbn [db with_db with_outside].
  match goal with
  | |- context [get_content_by_idea ?d' _] =>
      assert (add_content (db s) (Idea.id r) title body
                (current_timestamp (world e)).1 = inr (_, d')) as Hadd
        by apply add_content_eq
  end.
  split_and!.
  - by eapply get_content_by_idea_added.
  - intros limit rows d' Hrows Hd'.
    eapply flagged_not_pending; [|exact Hrows|exact Hd'].
    eapply flagged_add_content; [|exact Hadd]. by apply list_elem_of_fmap_2.
  - unfold get_stats. cbn. by rewrite length_fmap.
  - unfold get_stats. cbn [pending_ideas ideas].
    rewrite length_fmap, length_flagged_mark by (done || apply Hwf). lia.
  - unfold get_stats. cbn [ideas_with_content ideas].
    rewrite length_flagged_mark by (done || apply Hwf). lia.
  - unfold get_stats. cbn [total_content_pieces content].
    rewrite length_app. cbn. lia.
Qed.

(** X21: when the answer for an idea is an object whose [title] is null,
    the insert violates NOT NULL (or the other value cannot be bound): the
    loop raises at that idea, writes nothing, and the ideas after it get no
    request in this cycle. *)
Theorem null_title_ends_batch (d : Pending.dict) (rest : list Pending.dict)
    (n : Z) (s : service) (answer : gmap string Py.json) :
  (openai (article_request d) (world (outside s))).1
  = ApiText (Some (Py.JDict answer)) →
  answer !! "title" = Some Py.JNull →
  is_Some (answer !! "content") →
  ∃ ex s',
    for_each (expand_idea openai current_timestamp) (d :: rest) n s = (inl ex, s')
    ∧ db s' = db s
    ∧ calls (outside s') = calls (outside s) ++ [article_request d].
Proof.
  intros Hanswer Htitle [body Hbody].
  cbn [for_each]. unfold bind at 1.
  unfold expand_idea, bind, info, generator, of_result.
  cbn [fst snd outside with_outside].
  pose proof (generate_content_dict (Pending.topic d) (Pending.description d) 800
                (logger (GeneratingContentFor (Pending.topic d)) (outside s))
                answer Hanswer) as Hgen.
  pose proof (generate_content_env openai
                (Pending.topic d) (Pending.description d) 800
                (logger (GeneratingContentFor (Pending.topic d)) (outside s)))
    as (Hcalls & _ & _).
  destruct (generate_content _ _ _ _ _) as [result e].
  cbn [fst snd logger calls] in Hgen, Hcalls. rewrite Hgen by eauto.
  rewrite (truthy_dict answer "title") by eauto.
  unfold Py.getitem. rewrite Htitle, Hbody.
  unfold db_add_content. cbn [sqlite_bind].
  destruct (sqlite_bind body) as [ex|[b|]]; [by eexists _, _|..];
    rewrite read_clock_eq; by eexists _, _.
Qed.

End ContentBatch.

(** ** The further properties at concrete inputs *)

Lemma new_count_is_rows_added_witness :
  Z.of_nat (length (ideas (db after_A.2)))
  = Z.of_nat (length (ideas (db (service_on empty_database))))
    + (new_count after_A.1 - new_count no_locals)
  ∧ 0 ≤ new_count after_A.1 - new_count no_locals
  ∧ 0 ≤ duplicate_count after_A.1 - duplicate_count no_locals
  ∧ (new_count after_A.1 - new_count no_locals)
    + (duplicate_count after_A.1 - duplicate_count no_locals)
    ≤ Z.of_nat (length [idea_json "A" "a"])
  ∧ content (db after_A.2) = content (db (service_on empty_database)).
Proof.
  apply (new_count_is_rows_added backend_all_similar stopped_clock
           [idea_json "A" "a"] no_locals after_A.1
           (service_on empty_database) after_A.2);
    [vm_compute; discriminate|reflexivity].
Defined.

Lemma generate_and_store_ideas_appends_witness :
  ∃ new,
    ideas (db (generate_and_store_ideas backend_three_ideas stopped_clock
                 (service_on one_pending)))
    = ideas one_pending ++ new
    ∧ content (db (generate_and_store_ideas backend_three_ideas stopped_clock
                     (service_on one_pending)))
      = content one_pending
    ∧ Forall fresh_row new
    ∧ (0 ≤ 5 → Z.of_nat (length new) ≤ 5).
Proof.
  apply (generate_and_store_ideas_appends backend_three_ideas stopped_clock
           (service_on one_pending)).
  vm_compute. discriminate.
Defined.

Lemma fresh_batch_all_stored_witness :
  ∃ l' s',
    for_each (process_idea backend_down stopped_clock)
      [idea_json "A" "a"; idea_json " B " "b"] no_locals
      (service_on empty_database)
    = (inr l', s')
    ∧ existing_topics l' = existing_topics no_locals ++ ["A"; "B"]
    ∧ new_count l' = new_count no_locals + Z.of_nat (length ["A"; "B"])
    ∧ duplicate_count l' = duplicate_count no_locals
    ∧ Idea.topic <$> ideas (db s')
      = (Idea.topic <$> ideas empty_database) ++ ["A"; "B"]
    ∧ Forall (λ topic, idea_exists (db s') topic = true) ["A"; "B"].
Proof.
  apply (fresh_batch_all_stored backend_down stopped_clock
           [idea_json "A" "a"; idea_json " B " "b"] ["A"; "B"] no_locals
           (service_on empty_database)).
  - repeat constructor.
    + exists "a". apply (candidate_idea_json "A" "a").
    + exists "b". apply (candidate_idea_json " B " "b").
  - apply (bool_decide_unpack _). vm_compute. exact I.
  - repeat constructor; done.
  - intros t ts w H. exact H.
  - vm_compute. discriminate.
Defined.

Lemma generate_and_store_content_requests_witness :
  (∃ k added,
     calls (outside (generate_and_store_content backend_article stopped_clock
                       (service_on one_pending)))
     = calls quiet ++ (article_request <$> take k [pending_A])
     ∧ (k ≤ length [pending_A])%nat
     ∧ (0 < 3 → Z.of_nat k ≤ 3)
     ∧ Idea.id <$> ideas (db (generate_and_store_content backend_article
                                stopped_clock (service_on one_pending)))
       = Idea.id <$> ideas one_pending
     ∧ Idea.topic <$> ideas (db (generate_and_store_content backend_article
                                   stopped_clock (service_on one_pending)))
       = Idea.topic <$> ideas one_pending
     ∧ content (db (generate_and_store_content backend_article stopped_clock
                      (service_on one_pending)))
       = content one_pending ++ added
     ∧ (length added ≤ k)%nat
     ∧ ((k = length [pending_A]
         ∧ last (log (outside (generate_and_store_content backend_article
                                 stopped_clock (service_on one_pending))))
           = Some (ContentGenerationComplete (Z.of_nat (length added))))
        ∨ (∃ ex before d after n1 s1 s2,
             [pending_A] = before ++ d :: after
             ∧ k = S (length before)
             ∧ for_each (expand_idea backend_article stopped_clock) before 0
                 (with_outside
                    (logger (FoundPending (Z.of_nat (length [pending_A])))
                       (outside (service_on one_pending)))
                    (service_on one_pending))
               = (inr n1, s1)
             ∧ expand_idea backend_article stopped_clock d n1 s1 = (inl ex, s2)
             ∧ last (log (outside (generate_and_store_content backend_article
                                     stopped_clock (service_on one_pending))))
               = Some (ErrorInContentGeneration ex))))
  ∧ calls (outside (generate_and_store_content backend_article stopped_clock
                      service_no_limit))
    = calls (outside service_no_limit)
  ∧ db (generate_and_store_content backend_article stopped_clock
          service_no_limit)
    = db service_no_limit
  ∧ log (outside (generate_and_store_content backend_article stopped_clock
                    service_no_limit))
    = log (outside service_no_limit)
      ++ [ErrorInContentGeneration Py.IntegrityError].
Proof.
  split.
  - apply (generate_and_store_content_requests backend_article stopped_clock
             (service_on one_pending)).
    vm_compute. reflexivity.
  - apply (generate_and_store_content_requests backend_article stopped_clock
             service_no_limit).
    vm_compute. reflexivity.
Defined.

Lemma expand_idea_stores_article_witness :
  ∃ s' content_id now,
    expand_idea backend_article stopped_clock pending_A 0 (service_on one_pending)
    = (inr (0 + 1), s')
    ∧ get_content_by_idea (db s') 1
      = Some {| Article.id := content_id; Article.title := "Title";
                Article.content := "Body"; Article.created_at := now;
                Article.topic := "A" |}
    ∧ (∀ limit rows d',
         get_pending_ideas (db s') limit = inr rows → d' ∈ rows →
         Pending.id d' ≠ 1)
    ∧ total_ideas (get_stats (db s')) = total_ideas (get_stats one_pending)
    ∧ pending_ideas (get_stats (db s'))
      = pending_ideas (get_stats one_pending) - 1
    ∧ ideas_with_content (get_stats (db s'))
      = ideas_with_content (get_stats one_pending) + 1
    ∧ total_content_pieces (get_stats (db s'))
      = total_content_pieces (get_stats one_pending) + 1.
Proof.
  apply (expand_idea_stores_article backend_article stopped_clock pending_A 0
           (service_on one_pending) article_answer "Title" "Body").
  - apply reachable_well_formed, one_pending_reachable.
  - eexists. split_and!; [left|reflexivity..].
  - reflexivity.
  - reflexivity.
  - reflexivity.
Defined.

Lemma null_title_ends_batch_witness :
  ∃ ex s',
    for_each (expand_idea backend_null_title stopped_clock)
      [pending_A; pending_A] 0 (service_on one_pending)
    = (inl ex, s')
    ∧ db s' = one_pending
    ∧ calls (outside s') = calls quiet ++ [article_request pending_A].
Proof.
  apply (null_title_ends_batch backend_null_title stopped_clock pending_A
           [pending_A] 0 (service_on one_pending) null_title_answer).
  - reflexivity.
  - reflexivity.
  - by eexists.
Defined.


